(** * The software rasterization pipeline of [src/rasterizer/pipeline.cpp]

    A shallow embedding of [Pipeline::run], [lerp], [clip_line],
    [clip_triangle], [rasterize_line] and [rasterize_triangle], followed by
    the properties of the specification that concern them.

    Numbers.  The C++ [float] and [double] values are modelled by exact
    rationals ([Q]): every arithmetic operation of the source is the same
    operation on [Q], comparisons are the decidable comparisons of [Q], and
    [std::floor] is [Qfloor].  The model therefore agrees with the program
    on every input whose intermediate results are exactly representable
    (the concrete inputs evaluated below are of that kind, their other
    numbers being copied, not computed with); rounding, NaN and infinities
    are outside it, and a division by zero, which the program
    turns into an infinity or a NaN, is [0] here.  The C++ [int] and
    [int32_t] loop counters are integers ([Z]); the conversions between a
    floored coordinate and an [int] are assumed to be in range.  The
    [uint32_t] counter of out-of-range fragments wraps modulo [2^32]. *)

From Stdlib Require Import String ZArith QArith Qabs Qround List Permutation Bool Lia Lqa.
Import ListNotations.

Local Open Scope Z_scope.
Local Open Scope Q_scope.

(** ** Numbers *)

Module Float.

(** [a < b] on floats, as a boolean. *)
Definition ltb (a b : Q) : bool := negb (Qle_bool b a).
Definition leb (a b : Q) : bool := Qle_bool a b.
Definition eqb (a b : Q) : bool := Qeq_bool a b.

(** [std::max (a, b)] is [(a < b) ? b : a]; [std::min (a, b)] is
    [(b < a) ? b : a]. *)
Definition max (a b : Q) : Q := if ltb a b then b else a.
Definition min (a b : Q) : Q := if ltb b a then b else a.

(** [std::floor], read as an integer. *)
Definition floor (a : Q) : Z := Qfloor a.

(** [FLT_EPSILON] of [<cfloat>] for IEEE single precision: [2^-23]. *)
Definition FLT_EPSILON : Q := 1 # 8388608.

Definition half : Q := 1 # 2.

End Float.

(** ** Vectors and colors ([lib/mathlib.h], componentwise operations) *)

Record Vec2 := mkVec2 { v2x : Q; v2y : Q }.
Record Vec3 := mkVec3 { v3x : Q; v3y : Q; v3z : Q }.
Record Vec4 := mkVec4 { v4x : Q; v4y : Q; v4z : Q; v4w : Q }.
Record Spectrum := mkSpectrum { sr : Q; sg : Q; sb : Q }.

Definition Vec4_sub (b a : Vec4) : Vec4 :=
  mkVec4 (v4x b - v4x a) (v4y b - v4y a) (v4z b - v4z a) (v4w b - v4w a).
Definition Vec4_add (a b : Vec4) : Vec4 :=
  mkVec4 (v4x a + v4x b) (v4y a + v4y b) (v4z a + v4z b) (v4w a + v4w b).
Definition Vec4_scale (a : Vec4) (t : Q) : Vec4 :=
  mkVec4 (v4x a * t) (v4y a * t) (v4z a * t) (v4w a * t).
Definition Vec4_xyz (a : Vec4) : Vec3 := mkVec3 (v4x a) (v4y a) (v4z a).

Definition Vec3_scale (a : Vec3) (t : Q) : Vec3 :=
  mkVec3 (v3x a * t) (v3y a * t) (v3z a * t).
Definition Vec3_mul (a b : Vec3) : Vec3 :=
  mkVec3 (v3x a * v3x b) (v3y a * v3y b) (v3z a * v3z b).
Definition Vec3_add (a b : Vec3) : Vec3 :=
  mkVec3 (v3x a + v3x b) (v3y a + v3y b) (v3z a + v3z b).

(** Equality of vectors and colors up to the equality of rationals. *)
Definition Vec3_eq (a b : Vec3) : Prop :=
  v3x a == v3x b /\ v3y a == v3y b /\ v3z a == v3z b.
Definition Spectrum_eq (a b : Spectrum) : Prop :=
  sr a == sr b /\ sg a == sg b /\ sb a == sb b.

(** ** Pipeline flags *)

Inductive PrimitiveType := Lines | Triangles.

Inductive DepthTest := Pipeline_Depth_Always | Pipeline_Depth_Never | Pipeline_Depth_Less.
Inductive BlendMode := Pipeline_Blend_Replace | Pipeline_Blend_Add | Pipeline_Blend_Over.
Inductive InterpMode := Pipeline_Interp_Flat | Pipeline_Interp_Smooth | Pipeline_Interp_Correct.

(** Modelled from the spec: the [uint32_t] flag word of [pipeline.h] and its
    masks ([PipelineMask_Depth], [PipelineMask_Blend], [PipelineMask_Interp],
    the two write-disable bits), whose values are not part of the sources at
    hand.  The flag word is kept decoded into the five fields the spec lists
    for a pipeline configuration; [flags & PipelineMask_Depth] is
    [depth_test], [flags & Pipeline_DepthWriteDisableBit] is
    [depth_write_disable], and so on. *)
Record Flags := mkFlags {
  depth_test : DepthTest;
  depth_write_disable : bool;
  color_write_disable : bool;
  blend : BlendMode;
  interp : InterpMode
}.

(** [(flags & ~PipelineMask_Interp) | m] *)
Definition with_interp (flags : Flags) (m : InterpMode) : Flags :=
  mkFlags (depth_test flags) (depth_write_disable flags)
          (color_write_disable flags) (blend flags) m.

(** ** Vertices and fragments ([pipeline.h]) *)

Record ShadedVertex := mkShadedVertex {
  clip_position : Vec4;
  sv_attributes : list Q
}.

Record ClippedVertex := mkClippedVertex {
  cv_fb_position : Vec3;
  inv_w : Q;
  cv_attributes : list Q
}.

Record Fragment := mkFragment {
  fb_position : Vec3;
  attributes : list Q;
  derivatives : list Vec2
}.

Record ShadedFragment := mkShadedFragment {
  sf_fb_position : Vec3;
  color : Spectrum;
  opacity : Q
}.

(** ** Clipping *)

(** The attribute loop of [lerp]: both arrays have the same fixed size. *)
Fixpoint lerp_attributes (a b : list Q) (t : Q) : list Q :=
  match a, b with
  | x :: a', y :: b' => ((y - x) * t + x) :: lerp_attributes a' b' t
  | _, _ => []
  end.

Definition lerp (a b : ShadedVertex) (t : Q) : ShadedVertex :=
  {| clip_position :=
       Vec4_add (Vec4_scale (Vec4_sub (clip_position b) (clip_position a)) t)
                (clip_position a);
     sv_attributes := lerp_attributes (sv_attributes a) (sv_attributes b) t |}.

(** The lambda [clip_range] of [clip_line]; the captured pair
    [(min_t, max_t)] is threaded through. *)
Definition clip_range (range : Q * Q) (l dl r dr : Q) : Q * Q :=
  let '(min_t, max_t) := range in
  if Float.eqb dr dl then
    if Float.ltb 0 (l - r) then (1, 0) else (min_t, max_t)
  else if Float.ltb dl dr then
    (Float.max min_t ((l - r) / (dr - dl)), max_t)
  else
    (min_t, Float.min max_t ((l - r) / (dr - dl))).

(** The six calls of [clip_range], in the order of the source. *)
Definition clip_line_range (va vb : ShadedVertex) : Q * Q :=
  let a := clip_position va in
  let b := clip_position vb in
  let ba := Vec4_sub b a in
  let r0 := (0, 1) in
  let r1 := clip_range r0 (- v4w a) (- v4w ba) (v4x a) (v4x ba) in
  let r2 := clip_range r1 (v4x a) (v4x ba) (v4w a) (v4w ba) in
  let r3 := clip_range r2 (- v4w a) (- v4w ba) (v4y a) (v4y ba) in
  let r4 := clip_range r3 (v4y a) (v4y ba) (v4w a) (v4w ba) in
  let r5 := clip_range r4 (- v4w a) (- v4w ba) (v4z a) (v4z ba) in
  clip_range r5 (v4z a) (v4z ba) (v4w a) (v4w ba).

(** A vertex of the shortened line: [lerp], with the attributes of [va]
    put back in flat mode. *)
Definition clip_line_cut (flags : Flags) (va vb : ShadedVertex) (t : Q)
  : ShadedVertex :=
  let out := lerp va vb t in
  match interp flags with
  | Pipeline_Interp_Flat =>
      {| clip_position := clip_position out; sv_attributes := sv_attributes va |}
  | _ => out
  end.

(** [clip_line]: the result is the sequence of calls of [emit_vertex]. *)
Definition clip_line (flags : Flags) (va vb : ShadedVertex) : list ShadedVertex :=
  let '(min_t, max_t) := clip_line_range va vb in
  if Float.ltb min_t max_t then
    [ if Float.eqb min_t 0 then va else clip_line_cut flags va vb min_t ;
      if Float.eqb max_t 1 then vb else clip_line_cut flags va vb max_t ]
  else [].

(** [clip_triangle]: the three vertices are emitted as they are. *)
Definition clip_triangle (flags : Flags) (va vb vc : ShadedVertex)
  : list ShadedVertex :=
  [va; vb; vc].

(** A clip-space position inside the canonical clip volume. *)
Definition in_clip_volume (p : Vec4) : Prop :=
  - v4w p <= v4x p /\ v4x p <= v4w p /\
  - v4w p <= v4y p /\ v4y p <= v4w p /\
  - v4w p <= v4z p /\ v4z p <= v4w p.

(** ** Loops over [int] counters *)

(** The values [lo, lo+1, ..., hi] taken by the counter of
    [for (i = lo; i <= hi; i++)], and the value it has when the loop ends. *)
Definition int_range (lo hi : Z) : list Z :=
  map (fun k => (lo + Z.of_nat k)%Z) (seq 0 (Z.to_nat (hi - lo + 1))).

Definition loop_count (lo hi : Z) : nat := Z.to_nat (hi - lo + 1).

Definition loop_exit (lo hi : Z) : Z := Z.max lo (hi + 1).

(** ** Line rasterization *)

Section Rasterizer.

(** [Program::FD], the number of attributes that carry derivatives. *)
Variable FD : nat.

(** [i + 0.5f] for an integer pixel coordinate. *)
Definition pixel_center (i : Z) : Q := inject_Z i + Float.half.

(** The four assignments that precede every [emit_fragment (point)]:
    position, attributes of [va], zero derivatives. *)
Definition point (va : ClippedVertex) (x y z : Q) : Fragment :=
  {| fb_position := mkVec3 x y z;
     attributes := cv_attributes va;
     derivatives := repeat (mkVec2 0 0) FD |}.

(** The diamond test shared by the endpoint cases:
    [std::abs (py - y - 0.5) + std::abs (px - x - 0.5) <= 0.5]. *)
Definition in_diamond (px py : Q) (x y : Z) : bool :=
  Float.leb (Qabs (py - inject_Z y - Float.half)
             + Qabs (px - inject_Z x - Float.half)) Float.half.

(** The depth given to the fragment of column (or row) [x] inside a loop. *)
Definition interpolate_z (reversed : bool) (za zb ax bx : Q) (x : Z) : Q :=
  if reversed
  then (za * (pixel_center x - ax) + zb * (bx - inject_Z x - Float.half)) / (bx - ax)
  else (zb * (pixel_center x - ax) + za * (bx - inject_Z x - Float.half)) / (bx - ax).

(** Vertical case: [ay] and [by] are ordered first. *)
Definition rasterize_line_vertical (va vb : ClippedVertex) (ax ay0 by0 : Q)
  : list Fragment :=
  let za := v3z (cv_fb_position va) in
  let zb := v3z (cv_fb_position vb) in
  let reversed := Float.ltb by0 ay0 in
  let ay := if reversed then by0 else ay0 in
  let by_ := if reversed then ay0 else by0 in
  let x := Float.floor ax in
  let y := Float.floor ay in
  let first :=
    if in_diamond ax ay x y || Float.leb ay (pixel_center y)
    then [point va (pixel_center x) (pixel_center y) (if reversed then za else zb)]
    else [] in
  let lo := (Float.floor ay + 1)%Z in
  let hi := (Float.floor by_ - 1)%Z in
  let middle :=
    map (fun y => point va (pixel_center x) (pixel_center y)
                    (interpolate_z reversed za zb ay by_ y))
        (int_range lo hi) in
  let y := loop_exit lo hi in
  let last :=
    if in_diamond ax ay x y || Float.leb (pixel_center y) by_
    then [point va (pixel_center x) (pixel_center y) (if reversed then zb else za)]
    else [] in
  first ++ middle ++ last.

(** Horizontal case, entered with [ax < bx]. *)
Definition rasterize_line_horizontal (va vb : ClippedVertex) (reversed : bool)
    (ax0 ay bx0 : Q) : list Fragment :=
  let za := v3z (cv_fb_position va) in
  let zb := v3z (cv_fb_position vb) in
  let swap := Float.ltb bx0 ax0 in
  let ax := if swap then bx0 else ax0 in
  let bx := if swap then ax0 else bx0 in
  let x := Float.floor ax in
  let y := Float.floor ay in
  let first :=
    if in_diamond ax ay x y || Float.ltb ax (pixel_center x)
    then [point va (pixel_center x) (pixel_center y) (if reversed then zb else za)]
    else [] in
  let lo := (Float.floor ax + 1)%Z in
  let hi := (Float.floor bx - 1)%Z in
  let middle :=
    map (fun x => point va (pixel_center x) (pixel_center y)
                    (interpolate_z reversed za zb ax bx x))
        (int_range lo hi) in
  let x := loop_exit lo hi in
  let last :=
    if in_diamond ax ay x y || Float.ltb (pixel_center x) bx
    then [point va (pixel_center x) (pixel_center y) (if reversed then za else zb)]
    else [] in
  first ++ middle ++ last.

(** The loop of the two diagonal cases: one fragment per column, [y]
    moving by [dy] each time.  Returns the fragments and the final [y]. *)
Fixpoint diagonal_loop (va : ClippedVertex) (reversed : bool)
    (za zb ax bx : Q) (dy : Z) (n : nat) (x y : Z) : list Fragment :=
  match n with
  | O => []
  | S n' =>
      point va (pixel_center x) (pixel_center y) (interpolate_z reversed za zb ax bx x)
      :: diagonal_loop va reversed za zb ax bx dy n' (x + 1)%Z (y + dy)%Z
  end.

(** The fragment of the pixel of [b] that closes a diagonal case. *)
Definition diagonal_last (va vb : ClippedVertex) (reversed : bool) (bx by_ : Q)
  : Fragment :=
  point va (pixel_center (Float.floor bx)) (pixel_center (Float.floor by_))
        (if reversed then v3z (cv_fb_position va) else v3z (cv_fb_position vb)).

(** Slope [+1]. *)
Definition rasterize_line_diagonal_positive (va vb : ClippedVertex)
    (reversed : bool) (ax ay bx by_ : Q) : list Fragment :=
  let za := v3z (cv_fb_position va) in
  let zb := v3z (cv_fb_position vb) in
  let x0 := Float.floor ax in
  let y0 := Float.floor ay in
  let d := (ay - inject_Z y0) - (ax - inject_Z x0) in
  let x := if Float.ltb d (- Float.half) then (x0 + 1)%Z else x0 in
  let y := if Float.ltb d (- Float.half) then y0
           else if Float.ltb Float.half d then (y0 + 1)%Z else y0 in
  let fb := inject_Z (Float.floor bx) in
  let fby := inject_Z (Float.floor by_) in
  diagonal_loop va reversed za zb ax bx 1 (loop_count x (Float.floor bx - 1)) x y
  ++ (if Float.leb (Qabs (by_ - fby - Float.half) + Qabs (bx - fb - Float.half)) Float.half
         || Float.ltb (3 # 2) (by_ - fby + bx - fb)
      then [diagonal_last va vb reversed bx by_] else []).

(** Slope [-1]; the source does not return after this case. *)
Definition rasterize_line_diagonal_negative (va vb : ClippedVertex)
    (reversed : bool) (ax ay bx by_ : Q) : list Fragment :=
  let za := v3z (cv_fb_position va) in
  let zb := v3z (cv_fb_position vb) in
  let x0 := Float.floor ax in
  let y0 := Float.floor ay in
  let s := (ay - inject_Z y0) + (ax - inject_Z x0) in
  let y := if Float.ltb s Float.half then (y0 - 1)%Z else y0 in
  let x := if Float.ltb s Float.half then x0
           else if Float.ltb (3 # 2) s then (x0 + 1)%Z else x0 in
  let fb := inject_Z (Float.floor bx) in
  let fby := inject_Z (Float.floor by_) in
  diagonal_loop va reversed za zb ax bx (-1) (loop_count x (Float.floor bx - 1)) x y
  ++ (if Float.leb (Qabs (by_ - fby - Float.half) + Qabs (bx - fb - Float.half)) Float.half
         || Float.ltb ((by_ - fby) - (bx - fb)) (- Float.half)
      then [diagonal_last va vb reversed bx by_] else []).

(** The loop of the two general cases.  [emit x y] is the fragment of the
    current pixel, [m] the slope in use; the state is [(x, y, epsilon)]. *)
Fixpoint general_loop (emit : Z -> Z -> Fragment) (m : Q) (signslope : Z)
    (n : nat) (x y : Z) (epsilon : Q) : list Fragment * (Z * Z) :=
  match n with
  | O => ([], (x, y))
  | S n' =>
      let up := Float.ltb (1 - m) epsilon in
      let y' := if up then (y + signslope)%Z else y in
      let e' := if up then epsilon + (m - 1) else epsilon + m in
      let '(fs, st) := general_loop emit m signslope n' (x + 1)%Z y' e' in
      (emit x y :: fs, st)
  end.

(** The general case on the major axis: [ax ay bx by_] and [m] are those of
    the source after its exchange of the roles of [x] and [y] (if any),
    and [mk] builds the position from the loop's [x], [y] and depth. *)
Definition rasterize_line_general (va vb : ClippedVertex) (reversed : bool)
    (mk : Z -> Z -> Q -> Fragment) (ax ay bx by_ m : Q) (signslope : Z)
  : list Fragment :=
  let za := v3z (cv_fb_position va) in
  let zb := v3z (cv_fb_position vb) in
  let x0 := Float.floor ax in
  let y0 := Float.floor ay in
  let e0 := ay - inject_Z y0 + (pixel_center x0 - ax) * m in
  let c1 := Float.ltb ay (inject_Z y0 + m * (ax - inject_Z x0 - Float.half)) in
  let c2 := Float.leb (inject_Z y0 + 1) (ay + (pixel_center x0 - ax) * m) in
  let c3 := Float.ltb (3 # 2) (ax - inject_Z x0 + ay - inject_Z y0) in
  let '(x, y, epsilon) :=
    if c1 then ((x0 + 1)%Z, y0, e0 + m)
    else if c2 then (x0, (y0 + signslope)%Z, e0 - 1)
    else if c3 then ((x0 + 1)%Z, (y0 + signslope)%Z, e0 + (m - 1))
    else (x0, y0, e0) in
  let '(fs, (x, y)) :=
    general_loop (fun x y => mk x y (interpolate_z reversed za zb ax bx x))
                 m signslope (loop_count x (Float.floor bx - 1)) x y epsilon in
  fs ++ (if in_diamond bx by_ x y || Float.ltb (pixel_center x) bx
         then [mk x y (if reversed then za else zb)] else []).

(** Everything in [rasterize_line] after the assertion on the
    interpolation mode. *)
Definition rasterize_line_body (va vb : ClippedVertex) : list Fragment :=
  let ax := v3x (cv_fb_position va) in
  let ay := v3y (cv_fb_position va) in
  let bx := v3x (cv_fb_position vb) in
  let by_ := v3y (cv_fb_position vb) in
  if ((Float.floor ax =? Float.floor bx) && (Float.floor ay =? Float.floor by_))%Z
  then []
  else if Float.ltb (Qabs (bx - ax)) Float.FLT_EPSILON
  then rasterize_line_vertical va vb ax ay by_
  else
    let reversed := Float.ltb bx ax in
    let ax' := if reversed then bx else ax in
    let ay' := if reversed then by_ else ay in
    let bx' := if reversed then ax else bx in
    let by' := if reversed then ay else by_ in
    let slope := (by' - ay') / (bx' - ax') in
    if Float.ltb (Qabs slope) Float.FLT_EPSILON
    then rasterize_line_horizontal va vb reversed ax' ay' bx'
    else if Float.ltb (Qabs (slope - 1)) Float.FLT_EPSILON
    then rasterize_line_diagonal_positive va vb reversed ax' ay' bx' by'
    else
      (if Float.ltb (Qabs (slope + 1)) Float.FLT_EPSILON
       then rasterize_line_diagonal_negative va vb reversed ax' ay' bx' by'
       else [])
      ++
      (let signslope := if Float.ltb slope 0 then (-1)%Z else 1%Z in
       let slope := if Float.ltb slope 0 then (-1) * slope else slope in
       if Float.ltb slope 1
       then rasterize_line_general va vb reversed
              (fun x y z => point va (pixel_center x) (pixel_center y) z)
              ax' ay' bx' by' slope signslope
       else if Float.ltb 1 slope
       then rasterize_line_general va vb reversed
              (fun x y z => point va (pixel_center y) (pixel_center x) z)
              ay' ax' by' bx' (1 / slope) signslope
       else []).

(** [rasterize_line]: [None] is the failed assertion of a pipeline that is
    not in flat interpolation mode, [Some] the sequence of calls of
    [emit_fragment]. *)
Definition rasterize_line (flags : Flags) (va vb : ClippedVertex)
  : option (list Fragment) :=
  match interp flags with
  | Pipeline_Interp_Flat => Some (rasterize_line_body va vb)
  | _ => None
  end.

(** ** Triangle rasterization *)

(** The vertices of the triangle in the order the flat rasterizer works
    with: [a] is a leftmost vertex, and of the other two [b] is the one
    with the larger [y]. *)
Definition order_vertices (pa pb pc : Vec3) : Vec3 * Vec3 * Vec3 :=
  if Float.ltb (v3x pb) (v3x pc) && Float.ltb (v3x pb) (v3x pa) then
    if Float.leb (v3y pc) (v3y pa) then (pb, pa, pc) else (pb, pc, pa)
  else if Float.ltb (v3x pc) (v3x pb) && Float.ltb (v3x pc) (v3x pa) then
    if Float.leb (v3y pb) (v3y pa) then (pc, pa, pb) else (pc, pb, pa)
  else
    if Float.leb (v3y pb) (v3y pc) then (pa, pc, pb) else (pa, pb, pc).

(** The body of every inner loop: barycentric depth, attributes of the
    first vertex of the call, zero derivatives. *)
Definition triangle_point (va : ClippedVertex) (a b c : Vec3) (x y : Z)
  : Fragment :=
  let '(ax, ay, az) := (v3x a, v3y a, v3z a) in
  let '(bx, by_, bz) := (v3x b, v3y b, v3z b) in
  let '(cx, cy, cz) := (v3x c, v3y c, v3z c) in
  let den := (by_ - cy) * (ax - cx) + (cx - bx) * (ay - cy) in
  let lambda_1 :=
    ((by_ - cy) * (pixel_center x - cx) + (cx - bx) * (pixel_center y - cy)) / den in
  let lambda_2 :=
    ((cy - ay) * (pixel_center x - cx) + (ax - cx) * (pixel_center y - cy)) / den in
  let interpolate_z :=
    lambda_1 * az + lambda_2 * bz + (1 - lambda_1 - lambda_2) * cz in
  point va (pixel_center x) (pixel_center y) interpolate_z.

(** The four bounds of the inner loops on [y]. *)
Definition lo_open (y_min : Q) : Z := (Float.floor (y_min - Float.half) + 1)%Z.
Definition lo_closed (y_min : Q) : Z := (Float.floor (Float.half - y_min) * (-1))%Z.
Definition hi_closed (y_max : Q) : Z := Float.floor (y_max - Float.half).
Definition hi_open (y_max : Q) : Z := (Float.floor (Float.half - y_max) * (-1) - 1)%Z.

(** The loop on the columns: for each [x], the pixels [lo y_min .. hi y_max],
    then the update of [y_max] and [y_min].  Returns the fragments and the
    values of [x], [y_max], [y_min] when the loop ends. *)
Fixpoint scan_columns (emit : Z -> Z -> Fragment) (lo hi : Q -> Z)
    (up_max up_min : Q -> Q) (n : nat) (x : Z) (y_max y_min : Q)
  : list Fragment * (Z * Q * Q) :=
  match n with
  | O => ([], (x, y_max, y_min))
  | S n' =>
      let column := map (emit x) (int_range (lo y_min) (hi y_max)) in
      let '(rest, st) :=
        scan_columns emit lo hi up_max up_min n' (x + 1)%Z (up_max y_max) (up_min y_min) in
      (column ++ rest, st)
  end.

(** A loop [for (x = x0; x <= x_end; x++)] on columns, [x_end] a float. *)
Definition scan_to (emit : Z -> Z -> Fragment) (lo hi : Q -> Z)
    (up_max up_min : Q -> Q) (x0 x_end : Z) (y_max y_min : Q) :=
  scan_columns emit lo hi up_max up_min (loop_count x0 x_end) x0 y_max y_min.

(** First corner case: [a] and [b] have the same [x]. *)
Definition rasterize_triangle_ab (emit : Z -> Z -> Fragment) (a b c : Vec3)
  : list Fragment :=
  let '(ax, ay) := (v3x a, v3y a) in
  let '(bx, by_) := (v3x b, v3y b) in
  let '(cx, cy) := (v3x c, v3y c) in
  let ka := (ay - cy) / (ax - cx) in
  let kb := (by_ - cy) / (bx - cx) in
  let fa := pixel_center (Float.floor ax) - ax in
  let fb := pixel_center (Float.floor bx) - bx in
  let '(slope_high, slope_low, y_max, y_min) :=
    if Float.ltb by_ ay
    then (ka, kb, ay + ka * fa, by_ + kb * fb)
    else (kb, ka, by_ + ka * fb, ay + kb * fa) in
  let x0 := Float.floor ax in
  let run lo hi :=
    fst (scan_to emit lo hi (fun y => y + slope_high) (fun y => y + slope_low)
                 x0 (Float.floor cx) y_max y_min) in
  if Float.leb 0 slope_high then run lo_open hi_closed
  else if Float.ltb slope_low 0 then run lo_closed hi_open
  else run lo_open hi_open.

(** Second corner case: [a] and [c] have the same [x]. *)
Definition rasterize_triangle_ac (emit : Z -> Z -> Fragment) (a b c : Vec3)
  : list Fragment :=
  let '(ax, ay) := (v3x a, v3y a) in
  let '(bx, by_) := (v3x b, v3y b) in
  let '(cx, cy) := (v3x c, v3y c) in
  let fa := pixel_center (Float.floor ax) - ax in
  let fc := pixel_center (Float.floor cx) - cx in
  let '(slope_high, slope_low, y_max, y_min) :=
    if Float.ltb cy ay
    then let sh := (ay - by_) / (ax - bx) in
         let sl := (cy - by_) / (cx - bx) in
         (sh, sl, ay + sh * fa, cy + sl * fc)
    else let sl := (ay - by_) / (ax - bx) in
         let sh := (by_ - cy) / (bx - cx) in
         (sh, sl, cy + sl * fc, ay + sh * fa) in
  let x0 := Float.floor ax in
  let run lo hi :=
    fst (scan_to emit lo hi (fun y => y + slope_high) (fun y => y + slope_low)
                 x0 (Float.floor bx) y_max y_min) in
  if Float.leb 0 slope_high then run lo_open hi_closed
  else if Float.ltb slope_low 0 then run lo_closed hi_open
  else run lo_open hi_open.

(** Third corner case: [b] and [c] have the same [x]. *)
Definition rasterize_triangle_bc (emit : Z -> Z -> Fragment) (a b c : Vec3)
  : list Fragment :=
  let '(ax, ay) := (v3x a, v3y a) in
  let '(bx, by_) := (v3x b, v3y b) in
  let '(cx, cy) := (v3x c, v3y c) in
  let slope_high := (by_ - ay) / (bx - ax) in
  let slope_low := (cy - ay) / (cx - ax) in
  let fa := pixel_center (Float.floor ax) - ax in
  let y_max := ay + fa * slope_high in
  let y_min := ay + fa * slope_low in
  let x0 := Float.floor ax in
  let run lo hi :=
    fst (scan_to emit lo hi (fun y => y + slope_high) (fun y => y + slope_low)
                 x0 (Float.floor bx) y_max y_min) in
  if Float.leb 0 slope_low then run lo_open hi_closed
  else if Float.ltb slope_high 0 then run lo_closed hi_open
  else run lo_closed hi_closed.

(** The general case: the columns up to the nearer of [b] and [c], then
    the columns up to the farther one along the third edge. *)
Definition rasterize_triangle_general (emit : Z -> Z -> Fragment) (a b c : Vec3)
  : list Fragment :=
  let '(ax, ay) := (v3x a, v3y a) in
  let '(bx, by_) := (v3x b, v3y b) in
  let '(cx, cy) := (v3x c, v3y c) in
  let s1 := (by_ - ay) / (bx - ax) in
  let s2 := (cy - ay) / (cx - ax) in
  let slope_high := if Float.ltb s1 s2 then s2 else s1 in
  let slope_low := if Float.ltb s1 s2 then s1 else s2 in
  let fa := pixel_center (Float.floor ax) - ax in
  let y_max := ay + slope_high * fa in
  let y_min := ay + slope_low * fa in
  let x0 := Float.floor ax in
  let x_end := Z.min (Float.floor bx) (Float.floor cx) in
  let run lo hi :=
    scan_to emit lo hi (fun y => y + slope_high) (fun y => y + slope_low)
            x0 x_end y_max y_min in
  let '(near, (x, y_max, y_min)) :=
    if Float.leb 0 slope_low then run lo_open hi_closed
    else if Float.leb slope_high 0 then run lo_closed hi_open
    else run lo_closed hi_closed in
  let x_max := Float.floor (if Float.ltb cx bx then bx else cx) in
  let y_max := y_max - slope_high in
  let y_min := y_min - slope_low in
  let slope_other := (by_ - cy) / (bx - cx) in
  let far :=
    if Float.ltb 0 slope_other then
      fst (scan_to emit lo_open hi_closed
                   (fun y => y + slope_high) (fun y => y + slope_other)
                   x x_max (y_max + slope_high) (y_min + slope_other))
    else if Float.ltb slope_other 0 then
      fst (scan_to emit lo_open hi_closed
                   (fun y => y + slope_other) (fun y => y + slope_low)
                   x x_max (y_max + slope_other) (y_min + slope_low))
    else if Float.ltb slope_high 0 then
      fst (scan_to emit lo_closed hi_closed
                   (fun y => y + slope_high) (fun y => y)
                   x x_max (y_max + slope_high) y_min)
    else
      fst (scan_to emit lo_open hi_closed
                   (fun y => y) (fun y => y + slope_low)
                   x x_max y_max (y_min + slope_low)) in
  near ++ far.

(** The [Pipeline_Interp_Flat] branch of [rasterize_triangle]. *)
Definition rasterize_triangle_flat (va vb vc : ClippedVertex) : list Fragment :=
  let '(a, b, c) :=
    order_vertices (cv_fb_position va) (cv_fb_position vb) (cv_fb_position vc) in
  let emit := triangle_point va a b c in
  if Float.ltb (Qabs (v3x a - v3x b)) Float.FLT_EPSILON
  then rasterize_triangle_ab emit a b c
  else if Float.ltb (Qabs (v3x a - v3x c)) Float.FLT_EPSILON
  then rasterize_triangle_ac emit a b c
  else if Float.ltb (Qabs (v3x b - v3x c)) Float.FLT_EPSILON
  then rasterize_triangle_bc emit a b c
  else rasterize_triangle_general emit a b c.

(** The [Pipeline_Interp_Smooth] branch: a call of the instantiation whose
    flags are [(flags & ~PipelineMask_Interp) | Pipeline_Interp_Flat]. *)
Definition rasterize_triangle_smooth (va vb vc : ClippedVertex) : list Fragment :=
  rasterize_triangle_flat va vb vc.

(** The [Pipeline_Interp_Correct] branch: a call of the instantiation whose
    flags are [(flags & ~PipelineMask_Interp) | Pipeline_Interp_Smooth]. *)
Definition rasterize_triangle_correct (va vb vc : ClippedVertex) : list Fragment :=
  rasterize_triangle_smooth va vb vc.

(** [rasterize_triangle]: the sequence of calls of [emit_fragment]. *)
Definition rasterize_triangle (flags : Flags) (va vb vc : ClippedVertex)
  : list Fragment :=
  match interp flags with
  | Pipeline_Interp_Flat => rasterize_triangle_flat va vb vc
  | Pipeline_Interp_Smooth => rasterize_triangle_smooth va vb vc
  | Pipeline_Interp_Correct => rasterize_triangle_correct va vb vc
  end.

End Rasterizer.

(** The pixel a fragment belongs to: its floored framebuffer position. *)
Definition fragment_pixel (f : Fragment) : Z * Z :=
  (Float.floor (v3x (fb_position f)), Float.floor (v3y (fb_position f))).

(** The center of the pixel a fragment is emitted for, in lowest terms. *)
Definition fragment_center (f : Fragment) : Q * Q :=
  (Qred (v3x (fb_position f)), Qred (v3y (fb_position f))).

(** ** Framebuffer *)

(** Modelled from the spec: the [Framebuffer] of [framebuffer.h], which owns
    one depth value and one color value per pixel and gives access to them
    through [depth_at (x, y, 0)] and [color_at (x, y, 0)]; only sample [0]
    of a pixel is used by the pipeline. *)
Record Framebuffer := mkFramebuffer {
  width : Z;
  height : Z;
  depth_at : Z -> Z -> Q;
  color_at : Z -> Z -> Spectrum
}.

Definition write_cell {A : Type} (cells : Z -> Z -> A) (x y : Z) (v : A)
  : Z -> Z -> A :=
  fun x' y' => if ((x' =? x) && (y' =? y))%Z then v else cells x' y'.

(** [framebuffer.depth_at (x, y, 0) = z] *)
Definition set_depth (fb : Framebuffer) (x y : Z) (z : Q) : Framebuffer :=
  mkFramebuffer (width fb) (height fb) (write_cell (depth_at fb) x y z) (color_at fb).

(** [framebuffer.color_at (x, y, 0) = c] *)
Definition set_color (fb : Framebuffer) (x y : Z) (c : Spectrum) : Framebuffer :=
  mkFramebuffer (width fb) (height fb) (depth_at fb) (write_cell (color_at fb) x y c).

(** ** The effects of [run] *)

(** What [run] does to the outside, in order: the references it takes into
    the framebuffer, its writes through them, its calls of
    [Program::shade_fragment], and its calls of [warn]. *)
Inductive Event :=
| Ev_depth_at (x y : Z)
| Ev_color_at (x y : Z)
| Ev_depth_write (x y : Z) (z : Q)
| Ev_shade_fragment (attrs : list Q) (derivs : list Vec2)
| Ev_color_write (x y : Z) (c : Spectrum)
| Ev_warn (format : string) (count : Z).

Record State := mkState {
  framebuffer : Framebuffer;
  out_of_range : Z;
  trace : list Event
}.

Definition uint32_modulus : Z := 4294967296%Z.

Definition warn_clip_line : string :=
  "Produced %d fragments outside framebuffer; this indicates something is likely wrong with the clip_line function.".

Definition warn_clip_triangle : string :=
  "Produced %d fragments outside framebuffer; this indicates something is likely wrong with the clip_triangle function.".

(** [needle] occurs somewhere in [text]. *)
Fixpoint mentions (needle text : string) : bool :=
  String.prefix needle text ||
  match text with
  | EmptyString => false
  | String _ rest => mentions needle rest
  end.

Record Vertex := mkVertex { vertex_attributes : list Q }.

(** Primitive assembly: the loops [for (i = 0; i + 1 < size; i += 2)] and
    [for (i = 0; i + 2 < size; i += 3)]. *)
Fixpoint pairs {A : Type} (l : list A) : list (A * A) :=
  match l with
  | a :: b :: l' => (a, b) :: pairs l'
  | _ => []
  end.

Fixpoint triples {A : Type} (l : list A) : list (A * A * A) :=
  match l with
  | a :: b :: c :: l' => (a, b, c) :: triples l'
  | _ => []
  end.

(** All results, in order, unless one of the calls failed. *)
Fixpoint concat_all {A : Type} (l : list (option (list A))) : option (list A) :=
  match l with
  | [] => Some []
  | None :: _ => None
  | Some xs :: l' =>
      match concat_all l' with
      | Some ys => Some (xs ++ ys)
      | None => None
      end
  end.

Section Pipeline.

(** The shading program: [Program::Parameters], [Program::FD],
    [Program::shade_vertex] and [Program::shade_fragment]. *)
Variable Parameters : Type.
Variable FD : nat.
Variable shade_vertex : Parameters -> list Q -> Vec4 * list Q.
Variable shade_fragment : Parameters -> list Q -> list Vec2 -> Spectrum * Q.

Variable primitive_type : PrimitiveType.
Variable flags : Flags.

(** The lambda [emit_vertex] of [run]: perspective divide and viewport
    transform. *)
Definition emit_vertex (fb : Framebuffer) (sv : ShadedVertex) : ClippedVertex :=
  let clip_to_fb_scale :=
    mkVec3 (inject_Z (width fb) / 2) (inject_Z (height fb) / 2) Float.half in
  let clip_to_fb_offset :=
    mkVec3 (Float.half * inject_Z (width fb)) (Float.half * inject_Z (height fb))
           Float.half in
  let w_inv := 1 / v4w (clip_position sv) in
  {| cv_fb_position :=
       Vec3_add (Vec3_mul (Vec3_scale clip_to_fb_scale w_inv)
                          (Vec4_xyz (clip_position sv)))
                clip_to_fb_offset;
     inv_w := w_inv;
     cv_attributes := sv_attributes sv |}.

(** Vertex shading. *)
Definition shade_vertices (parameters : Parameters) (vertices : list Vertex)
  : list ShadedVertex :=
  map (fun v => let '(p, attrs) := shade_vertex parameters (vertex_attributes v) in
                mkShadedVertex p attrs) vertices.

(** Assembly, clipping and homogeneous divide. *)
Definition clip_vertices (fb : Framebuffer) (shaded_vertices : list ShadedVertex)
  : list ClippedVertex :=
  map (emit_vertex fb)
    match primitive_type with
    | Lines =>
        concat (map (fun '(a, b) => clip_line flags a b) (pairs shaded_vertices))
    | Triangles =>
        concat (map (fun '(a, b, c) => clip_triangle flags a b c)
                    (triples shaded_vertices))
    end.

(** Rasterization; [None] when [rasterize_line] fails its assertion. *)
Definition rasterize (clipped_vertices : list ClippedVertex)
  : option (list Fragment) :=
  match primitive_type with
  | Lines =>
      concat_all (map (fun '(a, b) => rasterize_line FD flags a b)
                      (pairs clipped_vertices))
  | Triangles =>
      Some (concat (map (fun '(a, b, c) => rasterize_triangle FD flags a b c)
                        (triples clipped_vertices)))
  end.

(** The test that guards the framebuffer:
    [x < 0 || (uint32_t)x >= width || y < 0 || (uint32_t)y >= height]. *)
Definition outside (fb : Framebuffer) (x y : Z) : bool :=
  ((x <? 0) || (width fb <=? x) || (y <? 0) || (height fb <=? y))%Z.

Definition log (e : list Event) (st : State) : State :=
  mkState (framebuffer st) (out_of_range st) (trace st ++ e).

(** The depth test of [run].  The branch of [Pipeline_Depth_Less] is empty
    in the source, so that a fragment goes on as under
    [Pipeline_Depth_Always]; neither mode reads the stored depth. *)
Definition depth_test_passes : bool :=
  match depth_test flags with
  | Pipeline_Depth_Always => true
  | Pipeline_Depth_Never => false
  | Pipeline_Depth_Less => true
  end.

(** The value assigned to [fb_color] by the blending branches of [run]:
    [sf.color] in each of them. *)
Definition blend_color (fb_color : Spectrum) (sf : ShadedFragment) : Spectrum :=
  match blend flags with
  | Pipeline_Blend_Replace => color sf
  | Pipeline_Blend_Add => color sf
  | Pipeline_Blend_Over => color sf
  end.

(** One iteration of the loop on the fragments: bounds check, depth test,
    depth write, shading and blending of fragment [f]. *)
Definition shade_and_blend (parameters : Parameters) (st : State) (f : Fragment)
  : State :=
  let x := Float.floor (v3x (fb_position f)) in
  let y := Float.floor (v3y (fb_position f)) in
  if outside (framebuffer st) x y then
    mkState (framebuffer st) ((out_of_range st + 1) mod uint32_modulus)%Z (trace st)
  else
    let st := log [Ev_depth_at x y; Ev_color_at x y] st in
    if negb depth_test_passes then st
    else
      let st :=
        if depth_write_disable flags then st
        else
          let z := v3z (fb_position f) in
          mkState (set_depth (framebuffer st) x y z) (out_of_range st)
                  (trace st ++ [Ev_depth_write x y z]) in
      let sf :=
        let '(c, o) := shade_fragment parameters (attributes f) (derivatives f) in
        mkShadedFragment (fb_position f) c o in
      let st := log [Ev_shade_fragment (attributes f) (derivatives f)] st in
      if color_write_disable flags then st
      else
        let c := blend_color (color_at (framebuffer st) x y) sf in
        mkState (set_color (framebuffer st) x y c) (out_of_range st)
                (trace st ++ [Ev_color_write x y c]).

(** The loop on the fragments, from an untouched framebuffer. *)
Definition initial (fb : Framebuffer) : State := mkState fb 0%Z [].

Definition shade_fragments (parameters : Parameters) (fb : Framebuffer)
    (fragments : list Fragment) : State :=
  fold_left (shade_and_blend parameters) fragments (initial fb).

(** The warning that closes [run]. *)
Definition warning : string :=
  match primitive_type with
  | Lines => warn_clip_line
  | Triangles => warn_clip_triangle
  end.

Definition report (st : State) : State :=
  if (0 <? out_of_range st)%Z
  then log [Ev_warn warning (out_of_range st)] st
  else st.

(** Stages one to three of [run]: the fragments of a vertex list. *)
Definition fragments_of (vertices : list Vertex) (parameters : Parameters)
    (fb : Framebuffer) : option (list Fragment) :=
  rasterize (clip_vertices fb (shade_vertices parameters vertices)).

(** [run]: [None] is a failed assertion (null framebuffer, or a line
    pipeline that is not flat). *)
Definition run (vertices : list Vertex) (parameters : Parameters)
    (framebuffer_ : option Framebuffer) : option State :=
  match framebuffer_ with
  | None => None
  | Some fb =>
      match fragments_of vertices parameters fb with
      | None => None
      | Some fragments => Some (report (shade_fragments parameters fb fragments))
      end
  end.

End Pipeline.

(** The fragment lies outside a framebuffer of the size of [fb]. *)
Definition fragment_outside (fb : Framebuffer) (f : Fragment) : bool :=
  outside fb (fst (fragment_pixel f)) (snd (fragment_pixel f)).

(** Two states that differ at most in the counter of out-of-range
    fragments. *)
Definition same_effects (s1 s2 : State) : Prop :=
  framebuffer s1 = framebuffer s2 /\ trace s1 = trace s2.

Definition same_size (fb1 fb2 : Framebuffer) : Prop :=
  width fb1 = width fb2 /\ height fb1 = height fb2.

(** ** Notions used to state the properties of the stages *)

Definition Vec4_eq (a b : Vec4) : Prop :=
  v4x a == v4x b /\ v4y a == v4y b /\ v4z a == v4z b /\ v4w a == v4w b.

(** A framebuffer position inside the viewport of [fb]:
    [[0, width] x [0, height] x [0, 1]]. *)
Definition in_viewport (fb : Framebuffer) (p : Vec3) : Prop :=
  (0 <= v3x p /\ v3x p <= inject_Z (width fb)) /\
  (0 <= v3y p /\ v3y p <= inject_Z (height fb)) /\
  (0 <= v3z p /\ v3z p <= 1).


(** An effect that touches the framebuffer touches a pixel of it. *)
Definition event_in_bounds (fb : Framebuffer) (e : Event) : Prop :=
  match e with
  | Ev_depth_at x y | Ev_color_at x y
  | Ev_depth_write x y _ | Ev_color_write x y _ =>
      (0 <= x < width fb)%Z /\ (0 <= y < height fb)%Z
  | Ev_shade_fragment _ _ | Ev_warn _ _ => True
  end.

(** An effect that changes nothing and calls no shader. *)
Definition event_is_passive (e : Event) : Prop :=
  match e with
  | Ev_depth_at _ _ | Ev_color_at _ _ | Ev_warn _ _ => True
  | Ev_depth_write _ _ _ | Ev_color_write _ _ _ | Ev_shade_fragment _ _ => False
  end.

(** Twice the signed area of a triangle in the framebuffer plane. *)
Definition signed_area2 (a b c : Vec3) : Q :=
  (v3x b - v3x a) * (v3y c - v3y a) - (v3x c - v3x a) * (v3y b - v3y a).

(** ** What the specification asks of the depth test and of blending *)

(** The depth test of the specification for [Pipeline_Depth_Less]: strictly
    less than the stored depth. *)
Definition spec_depth_less (fragment_depth stored_depth : Q) : bool :=
  Float.ltb fragment_depth stored_depth.

(** [Add] blending of the specification: the previous color plus the
    fragment color times the opacity. *)
Definition spec_blend_add (fb_color c : Spectrum) (o : Q) : Spectrum :=
  mkSpectrum (sr fb_color + sr c * o) (sg fb_color + sg c * o) (sb fb_color + sb c * o).

(** [Over] blending of the specification. *)
Definition spec_blend_over (fb_color c : Spectrum) (o : Q) : Spectrum :=
  mkSpectrum (sr c * o + sr fb_color * (1 - o))
             (sg c * o + sg fb_color * (1 - o))
             (sb c * o + sb fb_color * (1 - o)).

(** ** A program and inputs to run the pipeline on *)

Module Sample.

(** A program that copies: the clip position of a vertex is its first
    four attributes and the others are passed on; the color of a fragment
    is its first three attributes and its opacity the fourth. *)
Definition Parameters : Type := unit.

Definition FD : nat := 2.

Definition shade_vertex (_ : Parameters) (attrs : list Q) : Vec4 * list Q :=
  (mkVec4 (nth 0 attrs 0) (nth 1 attrs 0) (nth 2 attrs 0) (nth 3 attrs 0),
   skipn 4 attrs).

Definition shade_fragment (_ : Parameters) (attrs : list Q) (_ : list Vec2)
  : Spectrum * Q :=
  (mkSpectrum (nth 0 attrs 0) (nth 1 attrs 0) (nth 2 attrs 0), nth 3 attrs 0).

Definition flags_of (d : DepthTest) (b : BlendMode) (i : InterpMode) : Flags :=
  mkFlags d false false b i.

(** A framebuffer of [w] by [h] pixels, every depth [1], every color [c]. *)
Definition cleared (w h : Z) (c : Spectrum) : Framebuffer :=
  mkFramebuffer w h (fun _ _ => 1) (fun _ _ => c).

(** A fragment at the center of pixel [(x, y)]. *)
Definition fragment_at (x y : Z) (z : Q) (attrs : list Q) : Fragment :=
  mkFragment (mkVec3 (pixel_center x) (pixel_center y) z) attrs
             (repeat (mkVec2 0 0) FD).

Definition black : Spectrum := mkSpectrum 0 0 0.
Definition red : Spectrum := mkSpectrum 1 0 0.
Definition blue : Spectrum := mkSpectrum 0 0 1.

Definition opaque_white : list Q := [1; 1; 1; 1].
Definition half_red : list Q := [1; 0; 0; 1 # 2].

(** The loop on the fragments, for this program. *)
Definition shade (flags : Flags) (fb : Framebuffer) (fragments : list Fragment)
  : State :=
  shade_fragments Parameters shade_fragment flags tt fb fragments.

(** A clipped vertex. *)
Definition vertex (x y z w_inv : Q) (attrs : list Q) : ClippedVertex :=
  mkClippedVertex (mkVec3 x y z) w_inv attrs.

(** A triangle whose vertices differ in [inv_w] and in their attribute. *)
Definition ta : ClippedVertex := vertex 0 0 0 1 [1].
Definition tb : ClippedVertex := vertex 4 0 (1 # 2) (1 # 2) [2].
Definition tc : ClippedVertex := vertex 4 4 1 (1 # 4) [3].

(** A triangle in clip space with one vertex outside the clip volume. *)
Definition ca : ShadedVertex := mkShadedVertex (mkVec4 2 0 0 1) [].
Definition cb : ShadedVertex := mkShadedVertex (mkVec4 0 0 0 1) [].
Definition cc : ShadedVertex := mkShadedVertex (mkVec4 0 1 0 1) [].

(** A line that leaves the clip volume through the plane [x = w]. *)
Definition la : ShadedVertex := mkShadedVertex (mkVec4 0 0 0 1) [10; 20].
Definition lb : ShadedVertex := mkShadedVertex (mkVec4 2 0 0 1) [30; 40].

(** A line that crosses the clip volume from side to side. *)
Definition lc : ShadedVertex := mkShadedVertex (mkVec4 (-2) 0 0 1) [10; 20].

(** A triangle that covers the lower right half of the clip volume, and
    one that reaches far outside of it; a vertex is its clip position
    followed by a color and an opacity. *)
Definition vertex_of (x y z w : Q) : Vertex := mkVertex [x; y; z; w; 1; 0; 0; 1].

Definition half_square : list Vertex :=
  [vertex_of (-1) (-1) 0 1; vertex_of 1 (-1) 0 1; vertex_of 1 1 0 1].

Definition malformed : list Vertex :=
  [vertex_of (-1) (-1) 0 1; vertex_of 3 (-1) 0 1; vertex_of 3 3 0 1].

(** [run] for this program. *)
Definition run (primitive_type : PrimitiveType) (flags : Flags)
    (vertices : list Vertex) (fb : Framebuffer) : option State :=
  run Parameters FD shade_vertex shade_fragment primitive_type flags vertices tt
      (Some fb).

End Sample.

(** * Properties *)

(** ** Comparisons of floats *)

Module FloatFacts.

Lemma ltb_lt a b : Float.ltb a b = true <-> a < b.
Proof.
unfold Float.ltb. rewrite negb_true_iff, <- not_true_iff_false, Qle_bool_iff.
split; [apply Qnot_le_lt | apply Qlt_not_le].
Qed.

Lemma ltb_ge a b : Float.ltb a b = false <-> b <= a.
Proof.
unfold Float.ltb. rewrite negb_false_iff. apply Qle_bool_iff.
Qed.


Lemma eqb_eq a b : Float.eqb a b = true <-> a == b.
Proof. apply Qeq_bool_iff. Qed.

Lemma eqb_neq a b : Float.eqb a b = false <-> ~ a == b.
Proof.
unfold Float.eqb. rewrite <- not_true_iff_false, Qeq_bool_iff. tauto.
Qed.

Lemma max_lub_l a b : a <= Float.max a b.
Proof.
unfold Float.max. destruct (Float.ltb a b) eqn:E.
- apply ltb_lt in E. apply Qlt_le_weak, E.
- apply Qle_refl.
Qed.

Lemma max_lub_r a b : b <= Float.max a b.
Proof.
unfold Float.max. destruct (Float.ltb a b) eqn:E.
- apply Qle_refl.
- apply ltb_ge, E.
Qed.

Lemma min_glb_l a b : Float.min a b <= a.
Proof.
unfold Float.min. destruct (Float.ltb b a) eqn:E.
- apply ltb_lt in E. apply Qlt_le_weak, E.
- apply Qle_refl.
Qed.

Lemma min_glb_r a b : Float.min a b <= b.
Proof.
unfold Float.min. destruct (Float.ltb b a) eqn:E.
- apply Qle_refl.
- apply ltb_ge, E.
Qed.

End FloatFacts.

(** ** Line rasterization *)

Section LineFacts.

Variable FD : nat.

(** The early return of [rasterize_line]. *)
Lemma rasterize_line_body_same_pixel (va vb : ClippedVertex) :
  Float.floor (v3x (cv_fb_position va)) = Float.floor (v3x (cv_fb_position vb)) ->
  Float.floor (v3y (cv_fb_position va)) = Float.floor (v3y (cv_fb_position vb)) ->
  rasterize_line_body FD va vb = [].
Proof.
  intros Hx Hy. unfold rasterize_line_body.
  rewrite Hx, Hy, !Z.eqb_refl. reflexivity.
Qed.

Lemma rasterize_line_flat (flags : Flags) (va vb : ClippedVertex) :
  interp flags = Pipeline_Interp_Flat ->
  rasterize_line FD flags va vb = Some (rasterize_line_body FD va vb).
Proof.
  intros Hflat. unfold rasterize_line. rewrite Hflat. reflexivity.
Qed.

End LineFacts.

(** C9.  When both endpoints of a line floor to the same pixel, in [x] and
    in [y], [rasterize_line] emits no fragment, whatever the segment does
    inside that pixel. *)
Theorem rasterize_line_inside_one_pixel (FD : nat) (flags : Flags)
    (va vb : ClippedVertex) :
  interp flags = Pipeline_Interp_Flat ->
  Float.floor (v3x (cv_fb_position va)) = Float.floor (v3x (cv_fb_position vb)) ->
  Float.floor (v3y (cv_fb_position va)) = Float.floor (v3y (cv_fb_position vb)) ->
  rasterize_line FD flags va vb = Some [].
Proof.
  intros Hflat Hx Hy.
  rewrite (rasterize_line_flat FD flags va vb Hflat).
  f_equal. apply rasterize_line_body_same_pixel; assumption.
Qed.

(** A segment that starts at the center of pixel [(0, 0)] and leaves its
    diamond without leaving the pixel. *)
Lemma rasterize_line_inside_one_pixel_witness :
  in_diamond (1 # 2) (1 # 2) 0 0 = true /\
  in_diamond (9 # 10) (9 # 10) 0 0 = false /\
  rasterize_line Sample.FD
    (Sample.flags_of Pipeline_Depth_Always Pipeline_Blend_Replace Pipeline_Interp_Flat)
    (Sample.vertex (1 # 2) (1 # 2) 0 1 [1])
    (Sample.vertex (9 # 10) (9 # 10) 0 1 [2]) = Some [].
Proof.
  split; [reflexivity | split; [reflexivity | ]].
  apply rasterize_line_inside_one_pixel; reflexivity.
Defined.

(** C6.  The vertical segment from [(2, 1)] to [(2, 4)] is rasterized to
    the pixels [(2,1)], [(2,2)], [(2,3)], with centers [(2.5,1.5)],
    [(2.5,2.5)], [(2.5,3.5)], and to nothing else, whatever the depths, the
    [inv_w] and the attributes of its endpoints. *)
Theorem rasterize_line_vertical_2_1_to_2_4 (FD : nat) (flags : Flags)
    (za zb wa wb : Q) (attrs_a attrs_b : list Q) :
  interp flags = Pipeline_Interp_Flat ->
  exists fragments,
    rasterize_line FD flags (mkClippedVertex (mkVec3 2 1 za) wa attrs_a)
                            (mkClippedVertex (mkVec3 2 4 zb) wb attrs_b)
    = Some fragments /\
    map fragment_pixel fragments = [(2, 1); (2, 2); (2, 3)]%Z /\
    map fragment_center fragments
    = [(5 # 2, 3 # 2); (5 # 2, 5 # 2); (5 # 2, 7 # 2)] /\
    Forall (fun f => attributes f = attrs_a) fragments.
Proof.
  intros Hflat. eexists. split.
  - apply rasterize_line_flat, Hflat.
  - split; [ | split ].
    + vm_compute. reflexivity.
    + vm_compute. reflexivity.
    + cbv -[Qabs Qmult Qplus Qminus Qdiv Qopp repeat]. repeat constructor.
Qed.

Lemma rasterize_line_vertical_2_1_to_2_4_witness :
  exists fragments,
    rasterize_line Sample.FD
      (Sample.flags_of Pipeline_Depth_Always Pipeline_Blend_Replace Pipeline_Interp_Flat)
      (mkClippedVertex (mkVec3 2 1 0) 1 [1])
      (mkClippedVertex (mkVec3 2 4 1) 1 [2])
    = Some fragments /\
    map fragment_pixel fragments = [(2, 1); (2, 2); (2, 3)]%Z /\
    map fragment_center fragments
    = [(5 # 2, 3 # 2); (5 # 2, 5 # 2); (5 # 2, 7 # 2)] /\
    Forall (fun f => attributes f = [1]) fragments.
Proof.
  apply rasterize_line_vertical_2_1_to_2_4. reflexivity.
Defined.

(** ** Line clipping in flat mode *)

Lemma clip_line_cut_flat (flags : Flags) (va vb : ShadedVertex) (t : Q) :
  interp flags = Pipeline_Interp_Flat ->
  sv_attributes (clip_line_cut flags va vb t) = sv_attributes va /\
  clip_position (clip_line_cut flags va vb t) = clip_position (lerp va vb t).
Proof.
  intros Hflat. unfold clip_line_cut. rewrite Hflat. split; reflexivity.
Qed.

(** C7.  In flat mode, a vertex that [clip_line] emits at an interpolated
    parameter (the start when [min_t > 0], the end when [max_t < 1]) has the
    interpolated position and the attributes of [va] as they are; and when
    the range is empty ([max_t <= min_t]) nothing is emitted. *)
Theorem clip_line_flat_attributes (flags : Flags) (va vb : ShadedVertex) :
  interp flags = Pipeline_Interp_Flat ->
  let min_t := fst (clip_line_range va vb) in
  let max_t := snd (clip_line_range va vb) in
  (max_t <= min_t -> clip_line flags va vb = []) /\
  (min_t < max_t ->
   exists s e,
     clip_line flags va vb = [s; e] /\
     (0 < min_t ->
      sv_attributes s = sv_attributes va /\
      clip_position s = clip_position (lerp va vb min_t)) /\
     (max_t < 1 ->
      sv_attributes e = sv_attributes va /\
      clip_position e = clip_position (lerp va vb max_t))).
Proof.
  intros Hflat min_t max_t. subst min_t max_t. unfold clip_line.
  destruct (clip_line_range va vb) as [min_t max_t]. cbn [fst snd]. split.
  - intros Hempty. apply FloatFacts.ltb_ge in Hempty. rewrite Hempty. reflexivity.
  - intros Hrange. apply FloatFacts.ltb_lt in Hrange. rewrite Hrange.
    do 2 eexists. split; [reflexivity | split].
    + intros Hmin.
      assert (E : Float.eqb min_t 0 = false).
      { apply FloatFacts.eqb_neq. intros H0. rewrite H0 in Hmin.
        exact (Qlt_irrefl 0 Hmin). }
      rewrite E. apply clip_line_cut_flat, Hflat.
    + intros Hmax.
      assert (E : Float.eqb max_t 1 = false).
      { apply FloatFacts.eqb_neq. intros H1. rewrite H1 in Hmax.
        exact (Qlt_irrefl 1 Hmax). }
      rewrite E. apply clip_line_cut_flat, Hflat.
Qed.

(** The line from [(-2,0,0,1)] to [(2,0,0,1)] is cut at both ends, at
    [t = 1/4] and [t = 3/4]: both emitted vertices have the attributes
    [10; 20] of its first endpoint. *)
Lemma clip_line_flat_attributes_witness :
  exists s e,
    clip_line (Sample.flags_of Pipeline_Depth_Always Pipeline_Blend_Replace
                               Pipeline_Interp_Flat) Sample.lc Sample.lb = [s; e] /\
    sv_attributes s = [10; 20] /\
    sv_attributes e = [10; 20].
Proof.
  destruct (clip_line_flat_attributes
              (Sample.flags_of Pipeline_Depth_Always Pipeline_Blend_Replace
                               Pipeline_Interp_Flat)
              Sample.lc Sample.lb eq_refl) as [_ Hcut].
  destruct Hcut as (s & e & Hemit & Hs & He); [vm_compute; reflexivity | ].
  exists s, e. split; [exact Hemit | split].
  - apply Hs. vm_compute. reflexivity.
  - apply He. vm_compute. reflexivity.
Defined.

(** The same line in flat mode, evaluated: both emitted vertices carry the
    attributes [10; 20] of the first endpoint, where interpolation gives
    [15; 25] and [25; 35]. *)
Example clip_line_flat_evaluated :
  clip_line_range Sample.lc Sample.lb = (1 # 4, 3 # 4) /\
  map sv_attributes
    (clip_line (Sample.flags_of Pipeline_Depth_Always Pipeline_Blend_Replace
                                Pipeline_Interp_Flat) Sample.lc Sample.lb)
  = [[10; 20]; [10; 20]] /\
  map (fun v => map Qred (sv_attributes v))
    (clip_line (Sample.flags_of Pipeline_Depth_Always Pipeline_Blend_Replace
                                Pipeline_Interp_Smooth) Sample.lc Sample.lb)
  = [[15; 25]; [25; 35]].
Proof.
  repeat split; vm_compute; reflexivity.
Qed.

(** ** Line clipping stays inside the clip volume *)

(** The constraint [l + t * dl <= r + t * dr] that [clip_range] imposes. *)
Lemma clip_range_sound (min_t max_t l dl r dr : Q) :
  forall t,
    fst (clip_range (min_t, max_t) l dl r dr) <= t ->
    t <= snd (clip_range (min_t, max_t) l dl r dr) ->
    (min_t <= t /\ t <= max_t) /\ l + t * dl <= r + t * dr.
Proof.
  intros t. unfold clip_range.
  destruct (Float.eqb dr dl) eqn:Eeq.
  - apply FloatFacts.eqb_eq in Eeq.
    destruct (Float.ltb 0 (l - r)) eqn:Epos; cbn [fst snd]; intros Hlo Hhi.
    + exfalso. lra.
    + apply FloatFacts.ltb_ge in Epos. split; [split; assumption | ].
      rewrite Eeq. lra.
  - apply FloatFacts.eqb_neq in Eeq.
    destruct (Float.ltb dl dr) eqn:Elt; cbn [fst snd]; intros Hlo Hhi.
    + apply FloatFacts.ltb_lt in Elt.
      pose proof (FloatFacts.max_lub_l min_t ((l - r) / (dr - dl))) as Hmin.
      pose proof (FloatFacts.max_lub_r min_t ((l - r) / (dr - dl))) as Hq.
      split; [split; lra | ].
      assert (E : l - r == (l - r) / (dr - dl) * (dr - dl)) by (field; lra).
      assert (Hprod : (l - r) / (dr - dl) * (dr - dl) <= t * (dr - dl)).
      { apply Qmult_le_compat_r; lra. }
      lra.
    + apply FloatFacts.ltb_ge in Elt.
      assert (Hneg : dr - dl < 0).
      { destruct (Qlt_le_dec dr dl) as [H | H]; [lra | ].
        exfalso. apply Eeq. apply Qle_antisym; assumption. }
      pose proof (FloatFacts.min_glb_l max_t ((l - r) / (dr - dl))) as Hmax.
      pose proof (FloatFacts.min_glb_r max_t ((l - r) / (dr - dl))) as Hq.
      split; [split; lra | ].
      assert (E : l - r == (l - r) / (dr - dl) * (dr - dl)) by (field; lra).
      assert (Hprod : (l - r) / (dr - dl) * (dr - dl) <= t * (dr - dl)) by nra.
      lra.
Qed.

(** The point of the line at parameter [t]. *)
Lemma lerp_position (va vb : ShadedVertex) (t : Q) :
  clip_position (lerp va vb t)
  = Vec4_add (Vec4_scale (Vec4_sub (clip_position vb) (clip_position va)) t)
             (clip_position va).
Proof. reflexivity. Qed.

(** Every parameter of the range that [clip_line] computes gives a point of
    the clip volume. *)
Lemma clip_line_range_sound (va vb : ShadedVertex) (t : Q) :
  fst (clip_line_range va vb) <= t ->
  t <= snd (clip_line_range va vb) ->
  (0 <= t /\ t <= 1) /\ in_clip_volume (clip_position (lerp va vb t)).
Proof.
  unfold clip_line_range. cbv zeta.
  set (a := clip_position va). set (b := clip_position vb).
  set (ba := Vec4_sub b a).
  set (r1 := clip_range (0, 1) (- v4w a) (- v4w ba) (v4x a) (v4x ba)).
  set (r2 := clip_range r1 (v4x a) (v4x ba) (v4w a) (v4w ba)).
  set (r3 := clip_range r2 (- v4w a) (- v4w ba) (v4y a) (v4y ba)).
  set (r4 := clip_range r3 (v4y a) (v4y ba) (v4w a) (v4w ba)).
  set (r5 := clip_range r4 (- v4w a) (- v4w ba) (v4z a) (v4z ba)).
  intros Hlo Hhi.
  pose proof (clip_range_sound (fst r5) (snd r5) (v4z a) (v4z ba) (v4w a) (v4w ba) t) as S6.
  rewrite <- surjective_pairing in S6. destruct (S6 Hlo Hhi) as [[L5 H5] C6].
  pose proof (clip_range_sound (fst r4) (snd r4) (- v4w a) (- v4w ba) (v4z a) (v4z ba) t) as S5.
  rewrite <- surjective_pairing in S5. destruct (S5 L5 H5) as [[L4 H4] C5].
  pose proof (clip_range_sound (fst r3) (snd r3) (v4y a) (v4y ba) (v4w a) (v4w ba) t) as S4.
  rewrite <- surjective_pairing in S4. destruct (S4 L4 H4) as [[L3 H3] C4].
  pose proof (clip_range_sound (fst r2) (snd r2) (- v4w a) (- v4w ba) (v4y a) (v4y ba) t) as S3.
  rewrite <- surjective_pairing in S3. destruct (S3 L3 H3) as [[L2 H2] C3].
  pose proof (clip_range_sound (fst r1) (snd r1) (v4x a) (v4x ba) (v4w a) (v4w ba) t) as S2.
  rewrite <- surjective_pairing in S2. destruct (S2 L2 H2) as [[L1 H1] C2].
  destruct (clip_range_sound 0 1 (- v4w a) (- v4w ba) (v4x a) (v4x ba) t L1 H1)
    as [[L0 H0] C1].
  split; [split; assumption | ].
  rewrite lerp_position. fold a b ba.
  unfold in_clip_volume, Vec4_add, Vec4_scale. cbn [v4x v4y v4z v4w].
  repeat split; lra.
Qed.

Lemma in_clip_volume_ext (p q : Vec4) :
  v4x p == v4x q -> v4y p == v4y q -> v4z p == v4z q -> v4w p == v4w q ->
  in_clip_volume p -> in_clip_volume q.
Proof.
  unfold in_clip_volume. intros Hx Hy Hz Hw. rewrite Hx, Hy, Hz, Hw. tauto.
Qed.

(** Clip containment for lines, in exact arithmetic: every vertex that
    [clip_line] emits satisfies [-w <= x, y, z <= w], in every interpolation
    mode and wherever the endpoints of the line are. *)
Theorem clip_line_in_clip_volume (flags : Flags) (va vb v : ShadedVertex) :
  In v (clip_line flags va vb) -> in_clip_volume (clip_position v).
Proof.
  unfold clip_line.
  pose proof (clip_line_range_sound va vb) as Hsound.
  destruct (clip_line_range va vb) as [min_t max_t]. cbn [fst snd] in Hsound.
  destruct (Float.ltb min_t max_t) eqn:Hrange; [ | intros []].
  apply FloatFacts.ltb_lt in Hrange.
  assert (Hcut : forall t, min_t <= t -> t <= max_t ->
                           in_clip_volume (clip_position (clip_line_cut flags va vb t))).
  { intros t Hlo Hhi.
    replace (clip_position (clip_line_cut flags va vb t))
      with (clip_position (lerp va vb t))
      by (unfold clip_line_cut; destruct (interp flags); reflexivity).
    apply Hsound; assumption. }
  intros [<- | [<- | []]].
  - destruct (Float.eqb min_t 0) eqn:E0; [ | apply Hcut; lra].
    apply FloatFacts.eqb_eq in E0.
    assert (H0 : in_clip_volume (clip_position (lerp va vb 0))) by (apply Hsound; lra).
    revert H0. rewrite lerp_position.
    apply in_clip_volume_ext;
      unfold Vec4_add, Vec4_scale, Vec4_sub; cbn [v4x v4y v4z v4w]; ring.
  - destruct (Float.eqb max_t 1) eqn:E1; [ | apply Hcut; lra].
    apply FloatFacts.eqb_eq in E1.
    assert (H1 : in_clip_volume (clip_position (lerp va vb 1))) by (apply Hsound; lra).
    revert H1. rewrite lerp_position.
    apply in_clip_volume_ext;
      unfold Vec4_add, Vec4_scale, Vec4_sub; cbn [v4x v4y v4z v4w]; ring.
Qed.

(** ** Triangle clipping and rasterization *)

(** The interpolation mode does not reach the triangle rasterizer: the
    smooth and the perspective-correct branches are calls of the flat one. *)
Lemma rasterize_triangle_ignores_interp (FD : nat) (flags flags' : Flags)
    (va vb vc : ClippedVertex) :
  rasterize_triangle FD flags va vb vc = rasterize_triangle FD flags' va vb vc.
Proof.
  unfold rasterize_triangle, rasterize_triangle_correct, rasterize_triangle_smooth.
  destruct (interp flags), (interp flags'); reflexivity.
Qed.

Lemma triangle_point_attributes (FD : nat) (va : ClippedVertex) (a b c : Vec3)
    (x y : Z) :
  attributes (triangle_point FD va a b c x y) = cv_attributes va.
Proof. reflexivity. Qed.

(** C5.  On the triangle [(0,0)], [(4,0)], [(4,4)] with [inv_w] [1], [1/2],
    [1/4] and attribute [1], [2], [3], the pipeline in perspective-correct
    mode and the pipeline in smooth mode emit the same fragments; pixel
    [(2, 0)] is among them, and every fragment carries the attribute [1] of
    the first vertex. *)
Theorem rasterize_triangle_correct_equals_smooth :
  let correct :=
    rasterize_triangle Sample.FD
      (Sample.flags_of Pipeline_Depth_Always Pipeline_Blend_Replace Pipeline_Interp_Correct)
      Sample.ta Sample.tb Sample.tc in
  let smooth :=
    rasterize_triangle Sample.FD
      (Sample.flags_of Pipeline_Depth_Always Pipeline_Blend_Replace Pipeline_Interp_Smooth)
      Sample.ta Sample.tb Sample.tc in
  correct = smooth /\
  In (2, 0)%Z (map fragment_pixel correct) /\
  Forall (fun f => attributes f = [1]) correct /\
  Forall (fun f => attributes f = [1]) smooth.
Proof.
  cbv zeta. split; [apply rasterize_triangle_ignores_interp | ].
  split; [vm_compute; tauto | ].
  split; vm_compute; repeat constructor.
Qed.

(** C4.  [clip_triangle] emits its three vertices as they are: the vertex
    [(2, 0, 0, 1)], which lies outside the clip volume ([x > w]), is
    emitted unchanged. *)
Theorem clip_triangle_emits_vertex_outside_volume :
  let flags :=
    Sample.flags_of Pipeline_Depth_Always Pipeline_Blend_Replace Pipeline_Interp_Flat in
  clip_triangle flags Sample.ca Sample.cb Sample.cc = [Sample.ca; Sample.cb; Sample.cc] /\
  ~ in_clip_volume (clip_position Sample.ca).
Proof.
  split; [reflexivity | ].
  unfold in_clip_volume. cbn. intros (_ & H & _).
  apply (Qlt_not_le 1 2); [reflexivity | exact H].
Qed.

(** ** Depth test and blending *)

Lemma depth_test_less_passes (flags : Flags) :
  depth_test flags = Pipeline_Depth_Less -> depth_test_passes flags = true.
Proof.
  intros H. unfold depth_test_passes. rewrite H. reflexivity.
Qed.

Lemma blend_color_fragment_color (flags : Flags) (fb_color : Spectrum)
    (sf : ShadedFragment) :
  blend_color flags fb_color sf = color sf.
Proof.
  unfold blend_color. destruct (blend flags); reflexivity.
Qed.

(** C1.  With depth test [Less], a fragment of depth [0.3] and then one of
    depth [0.7] at pixel [(0, 0)]: the specification discards the second
    ([0.7 < 0.3] fails), the pipeline lets it pass, writes its depth and
    shades it, and the stored depth ends at [0.7]. *)
Theorem depth_less_second_fragment_passes :
  let flags :=
    Sample.flags_of Pipeline_Depth_Less Pipeline_Blend_Replace Pipeline_Interp_Flat in
  let fb := Sample.cleared 2 2 Sample.black in
  let near := Sample.fragment_at 0 0 (3 # 10) Sample.opaque_white in
  let far := Sample.fragment_at 0 0 (7 # 10) Sample.opaque_white in
  let st1 := Sample.shade flags fb [near] in
  let st2 := Sample.shade flags fb [near; far] in
  depth_at (framebuffer st1) 0 0 = 3 # 10 /\
  spec_depth_less (7 # 10) (depth_at (framebuffer st1) 0 0) = false /\
  depth_at (framebuffer st2) 0 0 = 7 # 10 /\
  trace st2 =
    trace st1 ++
    [Ev_depth_at 0 0; Ev_color_at 0 0; Ev_depth_write 0 0 (7 # 10);
     Ev_shade_fragment (attributes far) (derivatives far);
     Ev_color_write 0 0 (mkSpectrum 1 1 1)].
Proof.
  repeat split; vm_compute; reflexivity.
Qed.

(** C2.  With blend mode [Add] and color writes enabled, a fragment of
    color [(1,0,0)] and opacity [0.5] on a pixel of color [(0,0,1)] leaves
    [(1,0,0)] in the framebuffer, not the sum [(0.5,0,1)]. *)
Theorem blend_add_stores_fragment_color :
  let flags :=
    Sample.flags_of Pipeline_Depth_Always Pipeline_Blend_Add Pipeline_Interp_Flat in
  let fb := Sample.cleared 2 2 Sample.blue in
  let st := Sample.shade flags fb [Sample.fragment_at 0 0 (1 # 2) Sample.half_red] in
  color_write_disable flags = false /\
  color_at (framebuffer st) 0 0 = Sample.red /\
  Spectrum_eq (spec_blend_add Sample.blue Sample.red (1 # 2)) (mkSpectrum (1 # 2) 0 1) /\
  ~ Spectrum_eq (color_at (framebuffer st) 0 0)
                (spec_blend_add (color_at fb 0 0) Sample.red (1 # 2)).
Proof.
  cbv zeta. split; [reflexivity | ]. split; [vm_compute; reflexivity | ].
  split; [repeat split; vm_compute; reflexivity | ].
  intros (H & _). vm_compute in H. discriminate H.
Qed.

(** C3.  With blend mode [Over] and color writes enabled, a fragment of
    color [(1,0,0)] and opacity [0.5] over a pixel of color [(0,0,1)] leaves
    [(1,0,0)] in the framebuffer, not the composite [(0.5,0,0.5)]. *)
Theorem blend_over_stores_fragment_color :
  let flags :=
    Sample.flags_of Pipeline_Depth_Always Pipeline_Blend_Over Pipeline_Interp_Flat in
  let fb := Sample.cleared 2 2 Sample.blue in
  let st := Sample.shade flags fb [Sample.fragment_at 0 0 (1 # 2) Sample.half_red] in
  color_write_disable flags = false /\
  color_at (framebuffer st) 0 0 = Sample.red /\
  Spectrum_eq (spec_blend_over Sample.blue Sample.red (1 # 2))
              (mkSpectrum (1 # 2) 0 (1 # 2)) /\
  ~ Spectrum_eq (color_at (framebuffer st) 0 0)
                (spec_blend_over (color_at fb 0 0) Sample.red (1 # 2)).
Proof.
  cbv zeta. split; [reflexivity | ]. split; [vm_compute; reflexivity | ].
  split; [repeat split; vm_compute; reflexivity | ].
  intros (H & _). vm_compute in H. discriminate H.
Qed.

(** ** The loop on the fragments *)

Section PipelineFacts.

Variable Parameters : Type.
Variable FD : nat.
Variable shade_vertex : Parameters -> list Q -> Vec4 * list Q.
Variable shade_fragment : Parameters -> list Q -> list Vec2 -> Spectrum * Q.
Variable primitive_type : PrimitiveType.
Variable flags : Flags.
Variable parameters : Parameters.

Local Abbreviation step := (shade_and_blend Parameters shade_fragment flags parameters).

Lemma step_outside (st : State) (f : Fragment) :
  fragment_outside (framebuffer st) f = true ->
  step st f =
  mkState (framebuffer st) ((out_of_range st + 1) mod uint32_modulus)%Z (trace st).
Proof.
  unfold fragment_outside, fragment_pixel, step, shade_and_blend. cbn [fst snd].
  intros H. rewrite H. reflexivity.
Qed.

Lemma outside_same_size (fb1 fb2 : Framebuffer) (x y : Z) :
  same_size fb1 fb2 -> outside fb1 x y = outside fb2 x y.
Proof.
  intros [Hw Hh]. unfold outside. rewrite Hw, Hh. reflexivity.
Qed.

Lemma step_same_size (st : State) (f : Fragment) :
  same_size (framebuffer (step st f)) (framebuffer st).
Proof.
  unfold step, shade_and_blend, same_size, log.
  destruct (outside _ _ _); [split; reflexivity | ].
  destruct (negb _); [split; reflexivity | ].
  destruct (depth_write_disable flags), (color_write_disable flags);
    split; reflexivity.
Qed.

Lemma step_inside_counter (st : State) (f : Fragment) :
  fragment_outside (framebuffer st) f = false ->
  out_of_range (step st f) = out_of_range st.
Proof.
  unfold fragment_outside, fragment_pixel, step, shade_and_blend, log.
  cbn [fst snd]. intros H. rewrite H.
  destruct (negb _); [reflexivity | ].
  destruct (depth_write_disable flags), (color_write_disable flags); reflexivity.
Qed.

(** The effects of a step do not depend on the counter. *)
Lemma step_same_effects (s1 s2 : State) (f : Fragment) :
  same_effects s1 s2 ->
  fragment_outside (framebuffer s1) f = false ->
  same_effects (step s1 f) (step s2 f).
Proof.
  intros [Hfb Htr].
  unfold fragment_outside, fragment_pixel, step, shade_and_blend, log, same_effects.
  cbn [fst snd]. rewrite <- Hfb, <- Htr. intros H. rewrite H.
  destruct (negb _); [split; reflexivity | ].
  destruct (depth_write_disable flags), (color_write_disable flags);
    split; reflexivity.
Qed.

Lemma same_effects_refl (st : State) : same_effects st st.
Proof. split; reflexivity. Qed.

(** The loop, from any state: the fragments outside the framebuffer leave no
    effect, and each of them adds one to the counter. *)
Lemma fold_step_skips_outside (fb : Framebuffer) (fragments : list Fragment) :
  forall (s1 s2 : State) (k : Z),
    same_size (framebuffer s1) fb ->
    same_effects s1 s2 ->
    out_of_range s1 = (k mod uint32_modulus)%Z ->
    let inside := filter (fun f => negb (fragment_outside fb f)) fragments in
    let dropped := filter (fragment_outside fb) fragments in
    same_effects (fold_left step fragments s1) (fold_left step inside s2) /\
    out_of_range (fold_left step fragments s1)
    = ((k + Z.of_nat (length dropped)) mod uint32_modulus)%Z.
Proof.
  induction fragments as [ | f fragments IH]; intros s1 s2 k Hsize Heff Hk.
  - cbn. rewrite Z.add_0_r. split; assumption.
  - cbn [filter fold_left].
    assert (Hout : fragment_outside (framebuffer s1) f = fragment_outside fb f).
    { apply outside_same_size, Hsize. }
    assert (Hsize' : same_size (framebuffer (step s1 f)) fb).
    { destruct (step_same_size s1 f) as [Hw Hh], Hsize as [Hw' Hh'].
      split; congruence. }
    destruct (fragment_outside fb f) eqn:E; cbn [negb length].
    + specialize (IH (step s1 f) s2 (k + 1)%Z Hsize').
      destruct IH as [IH1 IH2].
      * rewrite step_outside by exact Hout. exact Heff.
      * rewrite step_outside by exact Hout. cbn [out_of_range].
        rewrite Hk. apply Zplus_mod_idemp_l.
      * split; [exact IH1 | ]. rewrite IH2. f_equal. lia.
    + cbn [fold_left].
      apply (IH (step s1 f) (step s2 f) k Hsize').
      * apply step_same_effects; assumption.
      * rewrite step_inside_counter by exact Hout. exact Hk.
Qed.

Lemma report_effects (st : State) :
  framebuffer (report primitive_type st) = framebuffer st /\
  out_of_range (report primitive_type st) = out_of_range st /\
  trace (report primitive_type st)
  = trace st ++
    (if (0 <? out_of_range st)%Z
     then [Ev_warn (warning primitive_type) (out_of_range st)] else []).
Proof.
  unfold report, log. destruct (0 <? out_of_range st)%Z; cbn.
  - repeat split.
  - rewrite app_nil_r. repeat split.
Qed.

Lemma warning_names_stage :
  match primitive_type with
  | Lines => mentions "clip_line" (warning primitive_type) = true
             /\ mentions "clip_triangle" (warning primitive_type) = false
  | Triangles => mentions "clip_triangle" (warning primitive_type) = true
                 /\ mentions "clip_line" (warning primitive_type) = false
  end.
Proof.
  destruct primitive_type; split; vm_compute; reflexivity.
Qed.

(** With color writes disabled a step leaves the colors alone. *)
Lemma step_keeps_colors (st : State) (f : Fragment) :
  color_write_disable flags = true ->
  color_at (framebuffer (step st f)) = color_at (framebuffer st).
Proof.
  intros Hcw. unfold step, shade_and_blend, log. rewrite Hcw.
  destruct (outside _ _ _); [reflexivity | ].
  destruct (negb _); [reflexivity | ].
  destruct (depth_write_disable flags); reflexivity.
Qed.

Lemma fold_step_keeps_colors (fragments : list Fragment) :
  color_write_disable flags = true ->
  forall st : State,
    color_at (framebuffer (fold_left step fragments st)) = color_at (framebuffer st).
Proof.
  intros Hcw. induction fragments as [ | f fragments IH]; intros st.
  - reflexivity.
  - cbn [fold_left]. rewrite IH. apply step_keeps_colors, Hcw.
Qed.

(** With color writes disabled, a fragment inside the framebuffer that the
    depth test lets pass is still shaded, and its depth is written unless
    depth writes are disabled too. *)
Lemma step_without_color_write (st : State) (f : Fragment) :
  color_write_disable flags = true ->
  fragment_outside (framebuffer st) f = false ->
  depth_test_passes flags = true ->
  let x := fst (fragment_pixel f) in
  let y := snd (fragment_pixel f) in
  let z := v3z (fb_position f) in
  trace (step st f)
  = trace st ++ [Ev_depth_at x y; Ev_color_at x y]
    ++ (if depth_write_disable flags then [] else [Ev_depth_write x y z])
    ++ [Ev_shade_fragment (attributes f) (derivatives f)] /\
  depth_at (framebuffer (step st f)) x y
  = (if depth_write_disable flags then depth_at (framebuffer st) x y else z).
Proof.
  intros Hcw Hin Hpass.
  unfold fragment_outside, fragment_pixel in *. cbn [fst snd] in *.
  unfold step, shade_and_blend, log. rewrite Hin, Hpass, Hcw. cbn [negb].
  destruct (depth_write_disable flags); cbn.
  - rewrite <- !app_assoc. split; reflexivity.
  - rewrite <- !app_assoc. split; [reflexivity | ].
    unfold write_cell. rewrite !Z.eqb_refl. reflexivity.
Qed.

(** Under [Pipeline_Depth_Less] a step is the step of the same pipeline
    under [Pipeline_Depth_Always]: the stored depth is never compared. *)
Lemma step_depth_less_as_always (st : State) (f : Fragment) :
  depth_test flags = Pipeline_Depth_Less ->
  step st f
  = shade_and_blend Parameters shade_fragment
      (mkFlags Pipeline_Depth_Always (depth_write_disable flags)
               (color_write_disable flags) (blend flags) (interp flags))
      parameters st f.
Proof.
  intros Hless. unfold shade_and_blend, depth_test_passes, blend_color.
  rewrite Hless. reflexivity.
Qed.

(** With color writes enabled, the color stored for a fragment that passes
    is the color the program returned, in every blend mode. *)
Lemma step_stores_fragment_color (st : State) (f : Fragment) :
  color_write_disable flags = false ->
  fragment_outside (framebuffer st) f = false ->
  depth_test_passes flags = true ->
  color_at (framebuffer (step st f)) (fst (fragment_pixel f)) (snd (fragment_pixel f))
  = fst (shade_fragment parameters (attributes f) (derivatives f)).
Proof.
  intros Hcw Hin Hpass.
  unfold fragment_outside, fragment_pixel in *. cbn [fst snd] in *.
  unfold shade_and_blend, log. rewrite Hin, Hpass, Hcw. cbn [negb].
  rewrite blend_color_fragment_color.
  destruct (shade_fragment parameters (attributes f) (derivatives f)) as [c o].
  destruct (depth_write_disable flags); cbn;
    unfold write_cell; rewrite !Z.eqb_refl; reflexivity.
Qed.

End PipelineFacts.

(** ** [run] *)

(** C8.  In every run, the fragments whose floored position lies outside
    the framebuffer are skipped without any effect: the framebuffer and the
    sequence of framebuffer accesses and shader calls are those of the loop
    on the other fragments alone.  They are counted (modulo [2^32]), and a
    nonzero count is reported after the loop by one warning, which names
    [clip_line] in a line pipeline and [clip_triangle] in a triangle
    pipeline; [run] returns normally. *)
Theorem out_of_range_fragments_skipped_counted_reported
    (Parameters : Type) (FD : nat)
    (shade_vertex : Parameters -> list Q -> Vec4 * list Q)
    (shade_fragment : Parameters -> list Q -> list Vec2 -> Spectrum * Q)
    (primitive_type : PrimitiveType) (flags : Flags)
    (vertices : list Vertex) (parameters : Parameters) (fb : Framebuffer)
    (fragments : list Fragment) :
  fragments_of Parameters FD shade_vertex primitive_type flags vertices parameters fb
  = Some fragments ->
  let loop := shade_fragments Parameters shade_fragment flags parameters fb in
  let inside := filter (fun f => negb (fragment_outside fb f)) fragments in
  let dropped := filter (fragment_outside fb) fragments in
  let count := (Z.of_nat (length dropped) mod uint32_modulus)%Z in
  exists st,
    run Parameters FD shade_vertex shade_fragment primitive_type flags
        vertices parameters (Some fb) = Some st /\
    framebuffer st = framebuffer (loop inside) /\
    out_of_range st = count /\
    trace st
    = trace (loop inside)
      ++ (if (0 <? count)%Z then [Ev_warn (warning primitive_type) count] else []) /\
    match primitive_type with
    | Lines => mentions "clip_line" (warning primitive_type) = true
               /\ mentions "clip_triangle" (warning primitive_type) = false
    | Triangles => mentions "clip_triangle" (warning primitive_type) = true
                   /\ mentions "clip_line" (warning primitive_type) = false
    end.
Proof.
  intros Hfrags loop inside dropped count.
  destruct (fold_step_skips_outside Parameters shade_fragment flags parameters
              fb fragments (initial fb) (initial fb) 0)
    as [[Hfb Htrace] Hcount].
  - split; reflexivity.
  - apply same_effects_refl.
  - reflexivity.
  - exists (report primitive_type (loop fragments)). split.
    + unfold run. rewrite Hfrags. reflexivity.
    + destruct (report_effects primitive_type (loop fragments)) as (Rfb & Rcount & Rtrace).
      rewrite Rfb, Rcount, Rtrace.
      unfold loop, shade_fragments. rewrite Hcount, Z.add_0_l.
      fold dropped. fold count. rewrite Hfb, Htrace. fold inside.
      repeat split; try reflexivity. apply warning_names_stage.
Qed.

(** A triangle that reaches outside the clip volume goes through
    [clip_triangle] as it is: on a framebuffer of [4] by [4] pixels, [35] of
    its fragments are out of range, and the run ends with the warning on
    [clip_triangle]. *)
Lemma out_of_range_fragments_skipped_counted_reported_witness :
  exists st events,
    Sample.run Triangles
      (Sample.flags_of Pipeline_Depth_Always Pipeline_Blend_Replace Pipeline_Interp_Flat)
      Sample.malformed (Sample.cleared 4 4 Sample.black) = Some st /\
    out_of_range st = 35%Z /\
    trace st = events ++ [Ev_warn warn_clip_triangle 35].
Proof.
  edestruct (out_of_range_fragments_skipped_counted_reported
               Sample.Parameters Sample.FD Sample.shade_vertex Sample.shade_fragment
               Triangles
               (Sample.flags_of Pipeline_Depth_Always Pipeline_Blend_Replace
                                Pipeline_Interp_Flat)
               Sample.malformed tt (Sample.cleared 4 4 Sample.black))
    as (st & Hrun & _ & Hcount & Htrace & _).
  - vm_compute. reflexivity.
  - exists st. eexists. split; [exact Hrun | split].
    + rewrite Hcount. vm_compute. reflexivity.
    + rewrite Htrace. f_equal.
Defined.

(** C10.  When the color-write-disable bit is set, [run] leaves every
    color of the framebuffer as it was, for every vertex list; a fragment
    inside the framebuffer that passes the depth test is still shaded, and
    its depth is still written unless depth writes are disabled as well. *)
Theorem color_write_disable_keeps_colors
    (Parameters : Type) (FD : nat)
    (shade_vertex : Parameters -> list Q -> Vec4 * list Q)
    (shade_fragment : Parameters -> list Q -> list Vec2 -> Spectrum * Q)
    (primitive_type : PrimitiveType) (flags : Flags)
    (vertices : list Vertex) (parameters : Parameters) (fb : Framebuffer)
    (st : State) :
  color_write_disable flags = true ->
  run Parameters FD shade_vertex shade_fragment primitive_type flags
      vertices parameters (Some fb) = Some st ->
  color_at (framebuffer st) = color_at fb /\
  (forall x y, color_at (framebuffer st) x y = color_at fb x y) /\
  (forall (s : State) (f : Fragment),
     fragment_outside (framebuffer s) f = false ->
     depth_test_passes flags = true ->
     let s' := shade_and_blend Parameters shade_fragment flags parameters s f in
     let x := fst (fragment_pixel f) in
     let y := snd (fragment_pixel f) in
     let z := v3z (fb_position f) in
     trace s'
     = trace s ++ [Ev_depth_at x y; Ev_color_at x y]
       ++ (if depth_write_disable flags then [] else [Ev_depth_write x y z])
       ++ [Ev_shade_fragment (attributes f) (derivatives f)] /\
     depth_at (framebuffer s') x y
     = (if depth_write_disable flags then depth_at (framebuffer s) x y else z)).
Proof.
  intros Hcw Hrun.
  assert (Hcolors : color_at (framebuffer st) = color_at fb).
  { unfold run in Hrun.
    destruct (fragments_of _ _ _ _ _ _ _ _) as [fragments | ]; [ | discriminate Hrun].
    injection Hrun as <-.
    destruct (report_effects primitive_type
                (shade_fragments Parameters shade_fragment flags parameters fb fragments))
      as (Rfb & _).
    rewrite Rfb. unfold shade_fragments.
    rewrite (fold_step_keeps_colors Parameters shade_fragment flags parameters
               fragments Hcw).
    reflexivity. }
  split; [exact Hcolors | split].
  - intros x y. rewrite Hcolors. reflexivity.
  - intros s f Hin Hpass.
    apply (step_without_color_write Parameters shade_fragment flags parameters s f
             Hcw Hin Hpass).
Qed.

(** A triangle drawn with color writes disabled and depth writes enabled:
    the colors stay black, the depth of pixel [(1, 0)] goes from [1] to
    [1/2], and the fragment of that pixel is shaded. *)
Lemma color_write_disable_keeps_colors_witness :
  let flags :=
    mkFlags Pipeline_Depth_Less false true Pipeline_Blend_Replace Pipeline_Interp_Flat in
  let fb := Sample.cleared 4 4 Sample.black in
  exists st,
    Sample.run Triangles flags Sample.half_square fb = Some st /\
    color_at (framebuffer st) = color_at fb /\
    depth_at fb 1 0 == 1 /\
    depth_at (framebuffer st) 1 0 == 1 # 2 /\
    In (Ev_shade_fragment [1; 0; 0; 1] (repeat (mkVec2 0 0) Sample.FD)) (trace st).
Proof.
  intros flags fb.
  destruct (Sample.run Triangles flags Sample.half_square fb) as [st | ] eqn:Hrun;
    [ | vm_compute in Hrun; discriminate Hrun].
  exists st. split; [reflexivity | ].
  destruct (color_write_disable_keeps_colors
              Sample.Parameters Sample.FD Sample.shade_vertex Sample.shade_fragment
              Triangles flags Sample.half_square tt fb st eq_refl Hrun)
    as (Hcolors & _ & _).
  split; [exact Hcolors | ].
  vm_compute in Hrun. injection Hrun as <-.
  split; [reflexivity | split; [vm_compute; reflexivity | ]].
  vm_compute. tauto.
Defined.

(** * Further properties of the stages *)

(** ** [clip_line]: the range of parameters *)





Lemma lerp_position_0 (va vb : ShadedVertex) :
  Vec4_eq (clip_position (lerp va vb 0)) (clip_position va).
Proof.
  rewrite lerp_position. unfold Vec4_eq, Vec4_add, Vec4_scale, Vec4_sub.
  cbn [v4x v4y v4z v4w]. repeat split; ring.
Qed.

Lemma lerp_position_1 (va vb : ShadedVertex) :
  Vec4_eq (clip_position (lerp va vb 1)) (clip_position vb).
Proof.
  rewrite lerp_position. unfold Vec4_eq, Vec4_add, Vec4_scale, Vec4_sub.
  cbn [v4x v4y v4z v4w]. repeat split; ring.
Qed.

Lemma lerp_position_wd (va vb : ShadedVertex) (t t' : Q) :
  t == t' ->
  Vec4_eq (clip_position (lerp va vb t)) (clip_position (lerp va vb t')).
Proof.
  intros E. rewrite !lerp_position. unfold Vec4_eq, Vec4_add, Vec4_scale, Vec4_sub.
  cbn [v4x v4y v4z v4w]. rewrite E. repeat split; reflexivity.
Qed.

Lemma Vec4_eq_sym (p q : Vec4) : Vec4_eq p q -> Vec4_eq q p.
Proof.
  unfold Vec4_eq. intros (Hx & Hy & Hz & Hw).
  repeat split; symmetry; assumption.
Qed.


(** The vertices that [clip_line] emits at the ends of a range
    [min_t < max_t] are the points of the line at [min_t] and at [max_t]. *)
Lemma clip_line_emitted (flags : Flags) (va vb : ShadedVertex) :
  let min_t := fst (clip_line_range va vb) in
  let max_t := snd (clip_line_range va vb) in
  (Float.ltb min_t max_t = false -> clip_line flags va vb = []) /\
  (Float.ltb min_t max_t = true ->
   exists s e,
     clip_line flags va vb = [s; e] /\
     Vec4_eq (clip_position s) (clip_position (lerp va vb min_t)) /\
     Vec4_eq (clip_position e) (clip_position (lerp va vb max_t))).
Proof.
  cbv zeta. unfold clip_line.
  destruct (clip_line_range va vb) as [min_t max_t]. cbn [fst snd].
  split; intros Hrange; rewrite Hrange; [reflexivity | ].
  assert (Hcut : forall t, clip_position (clip_line_cut flags va vb t)
                           = clip_position (lerp va vb t)).
  { intros t. unfold clip_line_cut. destruct (interp flags); reflexivity. }
  do 2 eexists. split; [reflexivity | split].
  - destruct (Float.eqb min_t 0) eqn:E0.
    + apply FloatFacts.eqb_eq in E0. apply Vec4_eq_sym.
      unfold Vec4_eq in *.
      destruct (lerp_position_wd va vb min_t 0 E0) as (Hx & Hy & Hz & Hw).
      destruct (lerp_position_0 va vb) as (Hx0 & Hy0 & Hz0 & Hw0).
      rewrite Hx, Hy, Hz, Hw. repeat split; assumption.
    + rewrite Hcut. repeat split; reflexivity.
  - destruct (Float.eqb max_t 1) eqn:E1.
    + apply FloatFacts.eqb_eq in E1. apply Vec4_eq_sym.
      unfold Vec4_eq in *.
      destruct (lerp_position_wd va vb max_t 1 E1) as (Hx & Hy & Hz & Hw).
      destruct (lerp_position_1 va vb) as (Hx1 & Hy1 & Hz1 & Hw1).
      rewrite Hx, Hy, Hz, Hw. repeat split; assumption.
    + rewrite Hcut. repeat split; reflexivity.
Qed.




(** [clip_line] emits nothing or two vertices, and the two are points of
    the line at parameters [0 <= t0 < t1 <= 1]: the clipped line runs in the
    direction of the line it comes from. *)
Theorem clip_line_keeps_direction (flags : Flags) (va vb : ShadedVertex) :
  clip_line flags va vb = [] \/
  exists s e t0 t1,
    clip_line flags va vb = [s; e] /\
    0 <= t0 /\ t0 < t1 /\ t1 <= 1 /\
    Vec4_eq (clip_position s) (clip_position (lerp va vb t0)) /\
    Vec4_eq (clip_position e) (clip_position (lerp va vb t1)).
Proof.
  destruct (clip_line_emitted flags va vb) as [Hnone Hsome].
  pose proof (clip_line_range_sound va vb) as Hsound.
  destruct (Float.ltb (fst (clip_line_range va vb)) (snd (clip_line_range va vb)))
    eqn:Hrange; [right | left; apply Hnone; reflexivity].
  destruct (Hsome eq_refl) as (s & e & Hemit & Hs & He).
  apply FloatFacts.ltb_lt in Hrange.
  exists s, e, (fst (clip_line_range va vb)), (snd (clip_line_range va vb)).
  destruct (Hsound (fst (clip_line_range va vb)) ltac:(lra) ltac:(lra)) as [[H0 _] _].
  destruct (Hsound (snd (clip_line_range va vb)) ltac:(lra) ltac:(lra)) as [[_ H1] _].
  split; [exact Hemit | split; [exact H0 | split; [exact Hrange | ]]].
  split; [exact H1 | split; assumption].
Qed.

(** A vertex of the line from [(-2,0,0,1)] to [(2,0,0,1)] after clipping. *)
Lemma clip_line_in_clip_volume_witness :
  let flags :=
    Sample.flags_of Pipeline_Depth_Always Pipeline_Blend_Replace Pipeline_Interp_Smooth in
  let v := clip_line_cut flags Sample.lc Sample.lb (3 # 4) in
  In v (clip_line flags Sample.lc Sample.lb) /\ in_clip_volume (clip_position v).
Proof.
  intros flags v.
  assert (Hin : In v (clip_line flags Sample.lc Sample.lb)).
  { vm_compute. right. left. reflexivity. }
  split; [exact Hin | ].
  apply (clip_line_in_clip_volume flags Sample.lc Sample.lb v Hin).
Defined.

(** ** Primitive assembly *)

Lemma list_ind2 {A : Type} (P : list A -> Prop) :
  P [] -> (forall a, P [a]) -> (forall a b l, P l -> P (a :: b :: l)) ->
  forall l, P l.
Proof.
  intros H0 H1 H2 l.
  assert (H : P l /\ forall a, P (a :: l)).
  { induction l as [ | x l [IH1 IH2]]; split; auto. }
  apply H.
Qed.

Lemma list_ind3 {A : Type} (P : list A -> Prop) :
  P [] -> (forall a, P [a]) -> (forall a b, P [a; b]) ->
  (forall a b c l, P l -> P (a :: b :: c :: l)) ->
  forall l, P l.
Proof.
  intros H0 H1 H2 H3 l.
  assert (H : P l /\ (forall a, P (a :: l)) /\ forall a b, P (a :: b :: l)).
  { induction l as [ | x l (IH1 & IH2 & IH3)]; repeat split; auto. }
  apply H.
Qed.

Lemma clip_line_length (flags : Flags) (va vb : ShadedVertex) :
  (length (clip_line flags va vb) <= 2)%nat.
Proof.
  unfold clip_line. destruct (clip_line_range va vb) as [min_t max_t].
  destruct (Float.ltb min_t max_t); cbn; lia.
Qed.

(** Clipping never produces more vertices than it is given: the space that
    [run] reserves for the clipped vertices is enough. *)
Theorem clip_vertices_length (primitive_type : PrimitiveType) (flags : Flags)
    (fb : Framebuffer) (shaded_vertices : list ShadedVertex) :
  (length (clip_vertices primitive_type flags fb shaded_vertices)
   <= length shaded_vertices)%nat.
Proof.
  unfold clip_vertices. rewrite length_map. destruct primitive_type.
  - induction shaded_vertices as [ | a | a b l IH] using list_ind2;
      cbn [pairs map concat length]; try lia.
    rewrite length_app. pose proof (clip_line_length flags a b). lia.
  - induction shaded_vertices as [ | a | a b | a b c l IH] using list_ind3;
      cbn [triples map concat length]; try lia.
    rewrite length_app. cbn [clip_triangle length]. lia.
Qed.

(** ** Projection to the framebuffer *)

Lemma viewport_coordinate (W x w : Q) :
  0 <= W -> 0 < w -> - w <= x -> x <= w ->
  0 <= W / 2 * (1 / w) * x + (1 # 2) * W /\
  W / 2 * (1 / w) * x + (1 # 2) * W <= W.
Proof.
  intros HW Hw Hlo Hhi.
  assert (Hu : -1 <= x / w /\ x / w <= 1).
  { split; [apply Qle_shift_div_l | apply Qle_shift_div_r]; lra. }
  assert (E : W / 2 * (1 / w) * x == (1 # 2) * (W * (x / w))) by (field; lra).
  rewrite E. destruct Hu as [Hu1 Hu2].
  set (u := x / w) in *. clearbody u.
  assert (P1 : 0 <= W * (u + 1)) by (apply Qmult_le_0_compat; lra).
  assert (P2 : 0 <= W * (1 - u)) by (apply Qmult_le_0_compat; lra).
  split; lra.
Qed.

(** [emit_vertex] maps a point of the clip volume with [w > 0] into the
    viewport [[0, width] x [0, height] x [0, 1]], and stores the
    reciprocal of [w]. *)
Theorem emit_vertex_in_viewport (fb : Framebuffer) (sv : ShadedVertex) :
  (0 <= width fb)%Z -> (0 <= height fb)%Z ->
  0 < v4w (clip_position sv) ->
  in_clip_volume (clip_position sv) ->
  in_viewport fb (cv_fb_position (emit_vertex fb sv)) /\
  inv_w (emit_vertex fb sv) * v4w (clip_position sv) == 1 /\
  cv_attributes (emit_vertex fb sv) = sv_attributes sv.
Proof.
  intros HW HH Hw (Hx1 & Hx2 & Hy1 & Hy2 & Hz1 & Hz2).
  assert (HWq : 0 <= inject_Z (width fb)).
  { change 0 with (inject_Z 0). rewrite <- Zle_Qle. exact HW. }
  assert (HHq : 0 <= inject_Z (height fb)).
  { change 0 with (inject_Z 0). rewrite <- Zle_Qle. exact HH. }
  split; [ | split; [ | reflexivity]].
  - unfold in_viewport, emit_vertex, Vec3_add, Vec3_mul, Vec3_scale, Vec4_xyz,
      Float.half.
    cbn [cv_fb_position v3x v3y v3z].
    split; [apply viewport_coordinate; assumption | ].
    split; [apply viewport_coordinate; assumption | ].
    pose proof (viewport_coordinate 1 (v4z (clip_position sv))
                  (v4w (clip_position sv)) ltac:(lra) Hw Hz1 Hz2) as [L U].
    assert (E : (1 # 2) * (1 / v4w (clip_position sv)) * v4z (clip_position sv)
                  + (1 # 2)
                == 1 / 2 * (1 / v4w (clip_position sv)) * v4z (clip_position sv)
                   + (1 # 2) * 1) by (field; lra).
    rewrite E. split; assumption.
  - unfold emit_vertex. cbn [inv_w]. field. lra.
Qed.

(** The center of the clip volume goes to the center of a framebuffer of
    [4] by [4] pixels, at depth [1/2]. *)
Lemma emit_vertex_in_viewport_witness :
  let fb := Sample.cleared 4 4 Sample.black in
  in_viewport fb (cv_fb_position (emit_vertex fb Sample.cb)) /\
  inv_w (emit_vertex fb Sample.cb) * v4w (clip_position Sample.cb) == 1 /\
  cv_attributes (emit_vertex fb Sample.cb) = sv_attributes Sample.cb.
Proof.
  intros fb. apply emit_vertex_in_viewport.
  - cbn. lia.
  - cbn. lia.
  - reflexivity.
  - unfold in_clip_volume. cbn. repeat split; lra.
Defined.

(** ** The fragments of a line *)


Section LineFragments.

Variable FD : nat.
Variable va : ClippedVertex.
Variable P : Fragment -> Prop.

(** [P] holds of every fragment that can be made for [va] at the center of
    a pixel. *)
Hypothesis P_point :
  forall (x y : Z) (z : Q), P (point FD va (pixel_center x) (pixel_center y) z).









End LineFragments.




(** ** The fragments of a triangle *)



Lemma triangle_point_is_point (FD : nat) (va : ClippedVertex) (a b c : Vec3) (x y : Z) :
  exists z, triangle_point FD va a b c x y
            = point FD va (pixel_center x) (pixel_center y) z.
Proof. unfold triangle_point. cbv zeta. eexists. reflexivity. Qed.

Section TriangleFragments.

Variable P : Fragment -> Prop.
Variable emit : Z -> Z -> Fragment.

Lemma scan_columns_all (lo hi : Q -> Z) (up_max up_min : Q -> Q) (n : nat) :
  forall (x : Z) (y_max y_min : Q),
    (forall x' y, (x <= x' < x + Z.of_nat n)%Z -> P (emit x' y)) ->
    Forall P (fst (scan_columns emit lo hi up_max up_min n x y_max y_min)) /\
    fst (fst (snd (scan_columns emit lo hi up_max up_min n x y_max y_min)))
    = (x + Z.of_nat n)%Z.
Proof.
  induction n as [ | n IH]; intros x y_max y_min Hemit; cbn [scan_columns].
  - cbn. split; [constructor | lia].
  - cbv zeta.
    destruct (IH (x + 1)%Z (up_max y_max) (up_min y_min)) as [IH1 IH2].
    { intros x' y Hx. apply Hemit. lia. }
    destruct (scan_columns emit lo hi up_max up_min n (x + 1) _ _) as [rest st].
    cbn [fst snd] in *. split; [ | lia].
    apply Forall_app. split; [ | exact IH1].
    apply Forall_map, Forall_forall. intros y _. apply Hemit. lia.
Qed.

Lemma scan_to_all (lo hi : Q -> Z) (up_max up_min : Q -> Q) (x0 x_end : Z)
    (y_max y_min : Q) :
  (forall x y, (x0 <= x <= x_end)%Z -> P (emit x y)) ->
  Forall P (fst (scan_to emit lo hi up_max up_min x0 x_end y_max y_min)) /\
  (x0 <= fst (fst (snd (scan_to emit lo hi up_max up_min x0 x_end y_max y_min))))%Z.
Proof.
  intros Hemit. unfold scan_to, loop_count.
  destruct (scan_columns_all lo hi up_max up_min (Z.to_nat (x_end - x0 + 1))
              x0 y_max y_min) as [H1 H2].
  { intros x y Hx. apply Hemit. lia. }
  split; [exact H1 | ]. rewrite H2. lia.
Qed.

Variables a b c : Vec3.

(** [P] holds of every fragment from the column of [a] to the columns of
    [b] and [c]. *)
Hypothesis P_columns :
  forall x y,
    (Float.floor (v3x a) <= x
     <= Z.max (Float.floor (v3x b)) (Float.floor (v3x c)))%Z ->
    P (emit x y).

Lemma rasterize_triangle_ab_all : Forall P (rasterize_triangle_ab emit a b c).
Proof.
  unfold rasterize_triangle_ab. cbv beta zeta.
  destruct (Float.ltb (v3y b) (v3y a));
    repeat match goal with |- Forall _ (if ?t then _ else _) => destruct t end;
    apply scan_to_all; intros x y Hx; apply P_columns; lia.
Qed.

Lemma rasterize_triangle_ac_all : Forall P (rasterize_triangle_ac emit a b c).
Proof.
  unfold rasterize_triangle_ac. cbv beta zeta.
  destruct (Float.ltb (v3y c) (v3y a));
    repeat match goal with |- Forall _ (if ?t then _ else _) => destruct t end;
    apply scan_to_all; intros x y Hx; apply P_columns; lia.
Qed.

Lemma rasterize_triangle_bc_all : Forall P (rasterize_triangle_bc emit a b c).
Proof.
  unfold rasterize_triangle_bc. cbv beta zeta.
  repeat match goal with |- Forall _ (if ?t then _ else _) => destruct t end;
    apply scan_to_all; intros x y Hx; apply P_columns; lia.
Qed.

Lemma rasterize_triangle_general_all :
  Forall P (rasterize_triangle_general emit a b c).
Proof.
  unfold rasterize_triangle_general. cbv beta zeta.
  set (x_max := Float.floor (if Float.ltb (v3x c) (v3x b) then v3x b else v3x c)).
  assert (Hmax : (x_max <= Z.max (Float.floor (v3x b)) (Float.floor (v3x c)))%Z).
  { subst x_max. destruct (Float.ltb (v3x c) (v3x b)); lia. }
  match goal with
  | |- context [ if ?c1 then scan_to _ _ _ _ _ _ _ _ _
                 else if ?c2 then _ else _ ] =>
      destruct c1; [ | destruct c2]
  end.
  all: match goal with
       | |- context [ scan_to emit ?lo ?hi ?um ?ul ?x0 ?xe ?ymax ?ymin ] =>
           destruct (scan_to_all lo hi um ul x0 xe ymax ymin) as [Hnear Hexit];
           [ intros x y Hx; apply P_columns; lia | ];
           destruct (scan_to emit lo hi um ul x0 xe ymax ymin)
             as [near [[x y_max] y_min]]
       end.
  all: cbn [fst snd] in Hnear, Hexit.
  all: apply Forall_app; split; [exact Hnear | ].
  all: repeat match goal with |- Forall _ (if ?t then _ else _) => destruct t end.
  all: apply scan_to_all; intros x' y' Hx; apply P_columns; lia.
Qed.

End TriangleFragments.

Lemma order_vertices_cases (pa pb pc : Vec3) :
  let '(a, b, c) := order_vertices pa pb pc in
  (a = pa /\ (b = pb /\ c = pc \/ b = pc /\ c = pb)) \/
  (a = pb /\ (b = pa /\ c = pc \/ b = pc /\ c = pa)) \/
  (a = pc /\ (b = pa /\ c = pb \/ b = pb /\ c = pa)).
Proof.
  unfold order_vertices.
  repeat match goal with |- context [ if ?t then _ else _ ] => destruct t end;
    tauto.
Qed.

(** The flat rasterizer: [P] holds of every fragment as soon as it holds of
    the fragments of the columns between the vertices. *)
Lemma rasterize_triangle_flat_all (FD : nat) (va vb vc : ClippedVertex)
    (P : Fragment -> Prop) :
  (forall a b c x y,
     order_vertices (cv_fb_position va) (cv_fb_position vb) (cv_fb_position vc)
     = (a, b, c) ->
     (Float.floor (v3x a) <= x
      <= Z.max (Float.floor (v3x b)) (Float.floor (v3x c)))%Z ->
     P (triangle_point FD va a b c x y)) ->
  Forall P (rasterize_triangle_flat FD va vb vc).
Proof.
  intros HP. unfold rasterize_triangle_flat.
  destruct (order_vertices _ _ _) as [[a b] c].
  specialize (HP a b c).
  repeat match goal with |- Forall _ (if ?t then _ else _) => destruct t end.
  - apply rasterize_triangle_ab_all. intros x y Hx. apply HP; [reflexivity | exact Hx].
  - apply rasterize_triangle_ac_all. intros x y Hx. apply HP; [reflexivity | exact Hx].
  - apply rasterize_triangle_bc_all. intros x y Hx. apply HP; [reflexivity | exact Hx].
  - apply rasterize_triangle_general_all. intros x y Hx.
    apply HP; [reflexivity | exact Hx].
Qed.

Lemma rasterize_triangle_is_flat (FD : nat) (flags : Flags) (va vb vc : ClippedVertex) :
  rasterize_triangle FD flags va vb vc = rasterize_triangle_flat FD va vb vc.
Proof.
  unfold rasterize_triangle, rasterize_triangle_correct, rasterize_triangle_smooth.
  destruct (interp flags); reflexivity.
Qed.



(** ** The order of the vertices of a triangle *)



(** ** Triangles that are not drawn *)

Lemma scan_to_empty (emit : Z -> Z -> Fragment) (lo hi : Q -> Z)
    (up_max up_min : Q -> Q) (x0 x_end : Z) (y_max y_min : Q) :
  (x_end < x0)%Z ->
  scan_to emit lo hi up_max up_min x0 x_end y_max y_min = ([], (x0, y_max, y_min)).
Proof.
  intros H. unfold scan_to, loop_count.
  replace (Z.to_nat (x_end - x0 + 1)) with 0%nat by lia. reflexivity.
Qed.

Lemma rasterize_triangle_cases_empty (emit : Z -> Z -> Fragment) (a b c : Vec3) :
  (Float.floor (v3x b) < Float.floor (v3x a))%Z ->
  (Float.floor (v3x c) < Float.floor (v3x a))%Z ->
  rasterize_triangle_ab emit a b c = [] /\
  rasterize_triangle_ac emit a b c = [] /\
  rasterize_triangle_bc emit a b c = [] /\
  rasterize_triangle_general emit a b c = [].
Proof.
  intros Hb Hc.
  assert (Hmax : (Float.floor (if Float.ltb (v3x c) (v3x b) then v3x b else v3x c)
                  < Float.floor (v3x a))%Z)
    by (destruct (Float.ltb (v3x c) (v3x b)); assumption).
  unfold rasterize_triangle_ab, rasterize_triangle_ac, rasterize_triangle_bc,
    rasterize_triangle_general.
  cbv beta zeta. repeat split.
  - destruct (Float.ltb (v3y b) (v3y a));
      repeat match goal with |- context [ if ?t then _ else _ ] => destruct t end;
      rewrite scan_to_empty by lia; reflexivity.
  - destruct (Float.ltb (v3y c) (v3y a));
      repeat match goal with |- context [ if ?t then _ else _ ] => destruct t end;
      rewrite scan_to_empty by lia; reflexivity.
  - repeat match goal with |- context [ if ?t then _ else _ ] => destruct t end;
      rewrite scan_to_empty by lia; reflexivity.
  - repeat rewrite (scan_to_empty emit _ _ _ _ (Float.floor (v3x a))
                      (Z.min (Float.floor (v3x b)) (Float.floor (v3x c)))) by lia.
    destruct (Float.leb 0 _); [ | destruct (Float.leb _ 0)];
      repeat match goal with
      | |- context [ if ?t then fst _ else _ ] => destruct t
      end;
      rewrite scan_to_empty by lia; reflexivity.
Qed.

(** A triangle whose second and third vertices share an [x] that lies in a
    column to the left of the first vertex is not drawn at all, in any
    interpolation mode: the first vertex is then taken as the leftmost one,
    and the loop on the columns never starts. *)
Theorem rasterize_triangle_first_vertex_right (FD : nat) (flags : Flags)
    (va vb vc : ClippedVertex) :
  v3x (cv_fb_position vb) == v3x (cv_fb_position vc) ->
  (Float.floor (v3x (cv_fb_position vb)) < Float.floor (v3x (cv_fb_position va)))%Z ->
  rasterize_triangle FD flags va vb vc = [].
Proof.
  intros Heq Hlt. rewrite rasterize_triangle_is_flat.
  set (pa := cv_fb_position va) in *. set (pb := cv_fb_position vb) in *.
  set (pc := cv_fb_position vc) in *.
  assert (Hfc : Float.floor (v3x pc) = Float.floor (v3x pb)).
  { unfold Float.floor. rewrite Heq. reflexivity. }
  assert (Hba : v3x pb < v3x pa).
  { apply Qnot_le_lt. intros Hle. apply Qfloor_resp_le in Hle.
    unfold Float.floor in Hlt. lia. }
  assert (Horder : exists b c,
             order_vertices pa pb pc = (pa, b, c) /\
             Float.floor (v3x b) = Float.floor (v3x pb) /\
             Float.floor (v3x c) = Float.floor (v3x pb)).
  { unfold order_vertices.
    assert (E1 : Float.ltb (v3x pb) (v3x pc) = false) by (apply FloatFacts.ltb_ge; lra).
    assert (E2 : Float.ltb (v3x pc) (v3x pb) = false) by (apply FloatFacts.ltb_ge; lra).
    rewrite E1, E2. cbn [andb].
    destruct (Float.leb (v3y pb) (v3y pc)); do 2 eexists;
      (split; [reflexivity | split; congruence]). }
  destruct Horder as (b & c & Horder & Hb & Hc).
  unfold rasterize_triangle_flat. fold pa pb pc. rewrite Horder.
  destruct (rasterize_triangle_cases_empty (triangle_point FD va pa b c) pa b c)
    as (Eab & Eac & Ebc & Egen); [lia | lia | ].
  rewrite Eab, Eac, Ebc, Egen.
  repeat match goal with |- context [ if ?t then _ else _ ] => destruct t end;
    reflexivity.
Qed.

(** The triangle [(4,0)], [(0,0)], [(0,4)] is not drawn. *)
Lemma rasterize_triangle_first_vertex_right_witness :
  rasterize_triangle Sample.FD
    (Sample.flags_of Pipeline_Depth_Always Pipeline_Blend_Replace Pipeline_Interp_Flat)
    (Sample.vertex 4 0 0 1 [1]) (Sample.vertex 0 0 0 1 [2]) (Sample.vertex 0 4 0 1 [3])
  = [].
Proof.
  apply rasterize_triangle_first_vertex_right.
  - reflexivity.
  - reflexivity.
Defined.

(** ** The depth of the fragments of a triangle *)

Lemma triangle_point_depth (FD : nat) (va : ClippedVertex) (a b c : Vec3) (x y : Z)
    (alpha beta gamma : Q) :
  ~ (v3y b - v3y c) * (v3x a - v3x c) + (v3x c - v3x b) * (v3y a - v3y c) == 0 ->
  v3z a == alpha * v3x a + beta * v3y a + gamma ->
  v3z b == alpha * v3x b + beta * v3y b + gamma ->
  v3z c == alpha * v3x c + beta * v3y c + gamma ->
  v3z (fb_position (triangle_point FD va a b c x y))
  == alpha * pixel_center x + beta * pixel_center y + gamma.
Proof.
  intros Hden Ha Hb Hc. unfold triangle_point, point. cbv zeta.
  cbn [fb_position v3z]. rewrite Ha, Hb, Hc. field. exact Hden.
Qed.

(** The depth of the fragments of a triangle of nonzero area is the linear
    interpolation of the depths of its vertices, in exact arithmetic: when
    the three vertices lie on the plane [z = alpha x + beta y + gamma],
    so does the center of every fragment.  The interpolation mode plays no
    part. *)
Theorem rasterize_triangle_depth_linear (FD : nat) (flags : Flags)
    (va vb vc : ClippedVertex) (alpha beta gamma : Q) :
  let on_plane p := v3z p == alpha * v3x p + beta * v3y p + gamma in
  ~ signed_area2 (cv_fb_position va) (cv_fb_position vb) (cv_fb_position vc) == 0 ->
  on_plane (cv_fb_position va) ->
  on_plane (cv_fb_position vb) ->
  on_plane (cv_fb_position vc) ->
  Forall (fun f => on_plane (fb_position f)) (rasterize_triangle FD flags va vb vc).
Proof.
  cbv zeta. intros Harea Ha Hb Hc.
  rewrite rasterize_triangle_is_flat. apply rasterize_triangle_flat_all.
  intros a b c x y Horder _.
  pose proof (order_vertices_cases (cv_fb_position va) (cv_fb_position vb)
                (cv_fb_position vc)) as Hcases.
  rewrite Horder in Hcases.
  assert (Hxy : v3x (fb_position (triangle_point FD va a b c x y)) = pixel_center x /\
                v3y (fb_position (triangle_point FD va a b c x y)) = pixel_center y).
  { destruct (triangle_point_is_point FD va a b c x y) as [z ->]. split; reflexivity. }
  destruct Hxy as [-> ->].
  unfold signed_area2 in Harea.
  destruct Hcases as [[-> [[-> ->] | [-> ->]]]
                     | [[-> [[-> ->] | [-> ->]]] | [-> [[-> ->] | [-> ->]]]]];
    apply triangle_point_depth; try assumption;
    intros Hden; apply Harea; lra.
Qed.

(** A triangle that rises from depth [0] at [x = 0] to depth [1] at
    [x = 4]: every fragment has the depth [x / 4] of its center. *)
Lemma rasterize_triangle_depth_linear_witness :
  Forall (fun f => v3z (fb_position f)
                   == (1 # 4) * v3x (fb_position f) + 0 * v3y (fb_position f) + 0)
    (rasterize_triangle Sample.FD
       (Sample.flags_of Pipeline_Depth_Always Pipeline_Blend_Replace Pipeline_Interp_Correct)
       (Sample.vertex 0 0 0 1 [1]) (Sample.vertex 4 0 1 1 [2])
       (Sample.vertex 4 4 1 1 [3])).
Proof.
  apply (rasterize_triangle_depth_linear Sample.FD
           (Sample.flags_of Pipeline_Depth_Always Pipeline_Blend_Replace
                            Pipeline_Interp_Correct)
           (Sample.vertex 0 0 0 1 [1]) (Sample.vertex 4 0 1 1 [2])
           (Sample.vertex 4 4 1 1 [3]) (1 # 4) 0 0).
  - vm_compute. discriminate.
  - reflexivity.
  - reflexivity.
  - reflexivity.
Defined.

(** ** What [run] leaves alone *)

Section RunFacts.

Variable Parameters : Type.
Variable FD : nat.
Variable shade_vertex : Parameters -> list Q -> Vec4 * list Q.
Variable shade_fragment : Parameters -> list Q -> list Vec2 -> Spectrum * Q.
Variable primitive_type : PrimitiveType.
Variable flags : Flags.
Variable parameters : Parameters.

Local Abbreviation step1 := (shade_and_blend Parameters shade_fragment flags parameters).

(** An invariant of the steps is an invariant of the loop and of the
    warning that follows it. *)
Lemma run_invariant (Inv : State -> Prop) (vertices : list Vertex)
    (fb : Framebuffer) (st : State) :
  Inv (initial fb) ->
  (forall s f, Inv s -> Inv (step1 s f)) ->
  (forall s format count,
     Inv s ->
     Inv (mkState (framebuffer s) (out_of_range s)
                  (trace s ++ [Ev_warn format count]))) ->
  run Parameters FD shade_vertex shade_fragment primitive_type flags
      vertices parameters (Some fb) = Some st ->
  Inv st.
Proof.
  intros Hinit Hstep Hwarn Hrun. unfold run in Hrun.
  destruct (fragments_of _ _ _ _ _ _ _ _) as [fragments | ]; [ | discriminate Hrun].
  injection Hrun as <-.
  assert (Hloop : forall s, Inv s -> Inv (fold_left step1 fragments s)).
  { induction fragments as [ | f fragments IH]; intros s Hs; [exact Hs | ].
    cbn [fold_left]. apply IH, Hstep, Hs. }
  unfold report, shade_fragments, log.
  destruct (0 <? _)%Z; [ | apply Hloop, Hinit].
  apply Hwarn, Hloop, Hinit.
Qed.

Lemma step_depth_never (s : State) (f : Fragment) :
  depth_test flags = Pipeline_Depth_Never ->
  framebuffer (step1 s f) = framebuffer s /\
  (Forall event_is_passive (trace s) -> Forall event_is_passive (trace (step1 s f))).
Proof.
  intros Hnever. unfold shade_and_blend, depth_test_passes, log. rewrite Hnever.
  destruct (outside _ _ _); cbn; split; auto.
  intros H. apply Forall_app. split; [exact H | repeat constructor].
Qed.

Lemma step_keeps_depths (s : State) (f : Fragment) :
  depth_write_disable flags = true ->
  depth_at (framebuffer (step1 s f)) = depth_at (framebuffer s).
Proof.
  intros Hdw. unfold shade_and_blend, log. rewrite Hdw.
  destruct (outside _ _ _); [reflexivity | ].
  destruct (negb _); [reflexivity | ].
  destruct (color_write_disable flags); reflexivity.
Qed.

Lemma outside_false (fb : Framebuffer) (x y : Z) :
  outside fb x y = false -> (0 <= x < width fb)%Z /\ (0 <= y < height fb)%Z.
Proof.
  unfold outside. rewrite !orb_false_iff, !Z.ltb_ge, !Z.leb_gt. lia.
Qed.

Lemma step_in_bounds (fb : Framebuffer) (s : State) (f : Fragment) :
  same_size (framebuffer s) fb /\ Forall (event_in_bounds fb) (trace s) ->
  same_size (framebuffer (step1 s f)) fb /\
  Forall (event_in_bounds fb) (trace (step1 s f)).
Proof.
  intros [[Hw Hh] Htrace].
  unfold shade_and_blend, log, same_size.
  destruct (outside (framebuffer s) _ _) eqn:Hout; [cbn; auto | ].
  apply outside_false in Hout. rewrite Hw, Hh in Hout.
  assert (Hacc : Forall (event_in_bounds fb)
                   (trace s ++ [Ev_depth_at (Float.floor (v3x (fb_position f)))
                                            (Float.floor (v3y (fb_position f)));
                                Ev_color_at (Float.floor (v3x (fb_position f)))
                                            (Float.floor (v3y (fb_position f)))])).
  { apply Forall_app. split; [exact Htrace | repeat constructor; apply Hout]. }
  destruct (negb _); [cbn; auto | ].
  destruct (depth_write_disable flags), (color_write_disable flags);
    cbn [framebuffer trace width height set_depth set_color]; (split; [auto | ]);
    repeat first [ exact Hacc
                 | apply Forall_app; split
                 | apply Forall_nil
                 | apply Forall_cons; [exact Hout | ]
                 | apply Forall_cons; [exact I | ] ].
Qed.

Lemma step_other_pixel (s : State) (f : Fragment) (x y : Z) :
  fragment_pixel f <> (x, y) ->
  depth_at (framebuffer (step1 s f)) x y = depth_at (framebuffer s) x y /\
  color_at (framebuffer (step1 s f)) x y = color_at (framebuffer s) x y.
Proof.
  intros Hne. unfold fragment_pixel in Hne.
  assert (Hcell : ((x =? Float.floor (v3x (fb_position f)))
                   && (y =? Float.floor (v3y (fb_position f))))%Z = false).
  { apply andb_false_iff.
    destruct (Z.eqb_spec x (Float.floor (v3x (fb_position f)))) as [-> | ];
      [ | left; reflexivity].
    destruct (Z.eqb_spec y (Float.floor (v3y (fb_position f)))) as [-> | ];
      [ | right; reflexivity].
    exfalso. apply Hne. reflexivity. }
  unfold shade_and_blend, log.
  destruct (outside _ _ _); [split; reflexivity | ].
  destruct (negb _); [split; reflexivity | ].
  destruct (depth_write_disable flags), (color_write_disable flags);
    cbn [framebuffer depth_at color_at set_depth set_color]; unfold write_cell;
    rewrite ?Hcell; split; reflexivity.
Qed.

Lemma fold_other_pixel (fragments : list Fragment) (x y : Z) :
  ~ In (x, y) (map fragment_pixel fragments) ->
  forall s,
    depth_at (framebuffer (fold_left step1 fragments s)) x y
    = depth_at (framebuffer s) x y /\
    color_at (framebuffer (fold_left step1 fragments s)) x y
    = color_at (framebuffer s) x y.
Proof.
  induction fragments as [ | f fragments IH]; intros Hnot s; [split; reflexivity | ].
  cbn [fold_left]. cbn [map In] in Hnot.
  destruct (IH (fun H => Hnot (or_intror H)) (step1 s f)) as [IHd IHc].
  destruct (step_other_pixel s f x y) as [Hd Hc].
  { intros E. apply Hnot. left. exact E. }
  rewrite IHd, IHc, Hd, Hc. split; reflexivity.
Qed.

End RunFacts.

(** With depth test [Never], [run] returns the framebuffer it was given:
    no depth and no color is written and no fragment is shaded, whatever
    the vertices are. *)
Theorem run_depth_never
    (Parameters : Type) (FD : nat)
    (shade_vertex : Parameters -> list Q -> Vec4 * list Q)
    (shade_fragment : Parameters -> list Q -> list Vec2 -> Spectrum * Q)
    (primitive_type : PrimitiveType) (flags : Flags)
    (vertices : list Vertex) (parameters : Parameters) (fb : Framebuffer)
    (st : State) :
  depth_test flags = Pipeline_Depth_Never ->
  run Parameters FD shade_vertex shade_fragment primitive_type flags
      vertices parameters (Some fb) = Some st ->
  framebuffer st = fb /\ Forall event_is_passive (trace st).
Proof.
  intros Hnever Hrun.
  apply (run_invariant Parameters FD shade_vertex shade_fragment primitive_type
           flags parameters
           (fun s => framebuffer s = fb /\ Forall event_is_passive (trace s))
           vertices fb st); [ | | | exact Hrun].
  - split; [reflexivity | constructor].
  - intros s f [Hfb Htr].
    destruct (step_depth_never Parameters shade_fragment flags parameters s f Hnever)
      as [H1 H2].
    split; [congruence | auto].
  - intros s format count [Hfb Htr]. cbn. split; [exact Hfb | ].
    apply Forall_app. split; [exact Htr | repeat constructor].
Qed.

Lemma run_depth_never_witness :
  let flags :=
    Sample.flags_of Pipeline_Depth_Never Pipeline_Blend_Replace Pipeline_Interp_Flat in
  let fb := Sample.cleared 4 4 Sample.black in
  exists st,
    Sample.run Triangles flags Sample.half_square fb = Some st /\
    framebuffer st = fb /\ Forall event_is_passive (trace st).
Proof.
  intros flags fb.
  destruct (Sample.run Triangles flags Sample.half_square fb) as [st | ] eqn:Hrun;
    [ | vm_compute in Hrun; discriminate Hrun].
  exists st. split; [reflexivity | ].
  apply (run_depth_never Sample.Parameters Sample.FD Sample.shade_vertex
           Sample.shade_fragment Triangles flags Sample.half_square tt fb st);
    [reflexivity | exact Hrun].
Defined.

(** When the depth-write-disable bit is set, [run] leaves every depth of
    the framebuffer as it was. *)
Theorem depth_write_disable_keeps_depths
    (Parameters : Type) (FD : nat)
    (shade_vertex : Parameters -> list Q -> Vec4 * list Q)
    (shade_fragment : Parameters -> list Q -> list Vec2 -> Spectrum * Q)
    (primitive_type : PrimitiveType) (flags : Flags)
    (vertices : list Vertex) (parameters : Parameters) (fb : Framebuffer)
    (st : State) :
  depth_write_disable flags = true ->
  run Parameters FD shade_vertex shade_fragment primitive_type flags
      vertices parameters (Some fb) = Some st ->
  depth_at (framebuffer st) = depth_at fb.
Proof.
  intros Hdw Hrun.
  apply (run_invariant Parameters FD shade_vertex shade_fragment primitive_type
           flags parameters
           (fun s => depth_at (framebuffer s) = depth_at fb)
           vertices fb st); [ | | | exact Hrun].
  - reflexivity.
  - intros s f Hs.
    rewrite (step_keeps_depths Parameters shade_fragment flags parameters s f Hdw).
    exact Hs.
  - intros s format count Hs. exact Hs.
Qed.

Lemma depth_write_disable_keeps_depths_witness :
  let flags :=
    mkFlags Pipeline_Depth_Always true false Pipeline_Blend_Replace Pipeline_Interp_Flat in
  let fb := Sample.cleared 4 4 Sample.black in
  exists st,
    Sample.run Triangles flags Sample.half_square fb = Some st /\
    depth_at (framebuffer st) = depth_at fb /\
    color_at (framebuffer st) 1 0 = Sample.red.
Proof.
  intros flags fb.
  destruct (Sample.run Triangles flags Sample.half_square fb) as [st | ] eqn:Hrun;
    [ | vm_compute in Hrun; discriminate Hrun].
  exists st. split; [reflexivity | ]. split.
  - apply (depth_write_disable_keeps_depths Sample.Parameters Sample.FD
             Sample.shade_vertex Sample.shade_fragment Triangles flags
             Sample.half_square tt fb st); [reflexivity | exact Hrun].
  - vm_compute in Hrun. injection Hrun as <-. reflexivity.
Defined.

(** [run] keeps the size of the framebuffer, and every reference it takes
    into the framebuffer and every write through one is at a pixel
    [0 <= x < width], [0 <= y < height], whatever the vertices are. *)
Theorem run_accesses_in_bounds
    (Parameters : Type) (FD : nat)
    (shade_vertex : Parameters -> list Q -> Vec4 * list Q)
    (shade_fragment : Parameters -> list Q -> list Vec2 -> Spectrum * Q)
    (primitive_type : PrimitiveType) (flags : Flags)
    (vertices : list Vertex) (parameters : Parameters) (fb : Framebuffer)
    (st : State) :
  run Parameters FD shade_vertex shade_fragment primitive_type flags
      vertices parameters (Some fb) = Some st ->
  same_size (framebuffer st) fb /\ Forall (event_in_bounds fb) (trace st).
Proof.
  intros Hrun.
  apply (run_invariant Parameters FD shade_vertex shade_fragment primitive_type
           flags parameters
           (fun s => same_size (framebuffer s) fb /\
                     Forall (event_in_bounds fb) (trace s))
           vertices fb st); [ | | | exact Hrun].
  - split; [split; reflexivity | constructor].
  - intros s f Hs. apply step_in_bounds, Hs.
  - intros s format count [Hsize Htr]. cbn [framebuffer trace].
    split; [exact Hsize | ].
    apply Forall_app. split; [exact Htr | repeat constructor].
Qed.

(** The triangle that reaches outside the clip volume: [35] of its
    fragments are out of range, and no access is. *)
Lemma run_accesses_in_bounds_witness :
  let flags :=
    Sample.flags_of Pipeline_Depth_Always Pipeline_Blend_Replace Pipeline_Interp_Flat in
  let fb := Sample.cleared 4 4 Sample.black in
  exists st,
    Sample.run Triangles flags Sample.malformed fb = Some st /\
    out_of_range st = 35%Z /\
    same_size (framebuffer st) fb /\ Forall (event_in_bounds fb) (trace st).
Proof.
  intros flags fb.
  destruct (Sample.run Triangles flags Sample.malformed fb) as [st | ] eqn:Hrun;
    [ | vm_compute in Hrun; discriminate Hrun].
  exists st. split; [reflexivity | ]. split.
  - vm_compute in Hrun. injection Hrun as <-. reflexivity.
  - apply (run_accesses_in_bounds Sample.Parameters Sample.FD Sample.shade_vertex
             Sample.shade_fragment Triangles flags Sample.malformed tt fb st).
    exact Hrun.
Defined.

(** [run] changes the depth and the color of no pixel other than those of
    its fragments. *)
Theorem run_other_pixels_unchanged
    (Parameters : Type) (FD : nat)
    (shade_vertex : Parameters -> list Q -> Vec4 * list Q)
    (shade_fragment : Parameters -> list Q -> list Vec2 -> Spectrum * Q)
    (primitive_type : PrimitiveType) (flags : Flags)
    (vertices : list Vertex) (parameters : Parameters) (fb : Framebuffer)
    (fragments : list Fragment) (x y : Z) :
  fragments_of Parameters FD shade_vertex primitive_type flags vertices parameters fb
  = Some fragments ->
  ~ In (x, y) (map fragment_pixel fragments) ->
  exists st,
    run Parameters FD shade_vertex shade_fragment primitive_type flags
        vertices parameters (Some fb) = Some st /\
    depth_at (framebuffer st) x y = depth_at fb x y /\
    color_at (framebuffer st) x y = color_at fb x y.
Proof.
  intros Hfrags Hnot. unfold run. rewrite Hfrags. eexists. split; [reflexivity | ].
  destruct (report_effects primitive_type
              (shade_fragments Parameters shade_fragment flags parameters fb fragments))
    as (Rfb & _).
  rewrite Rfb. unfold shade_fragments.
  apply (fold_other_pixel Parameters shade_fragment flags parameters fragments x y Hnot
           (initial fb)).
Qed.

(** Pixel [(0, 3)] lies above the triangle [half_square]. *)
Lemma run_other_pixels_unchanged_witness :
  let flags :=
    Sample.flags_of Pipeline_Depth_Always Pipeline_Blend_Replace Pipeline_Interp_Flat in
  let fb := Sample.cleared 4 4 Sample.black in
  exists st,
    Sample.run Triangles flags Sample.half_square fb = Some st /\
    depth_at (framebuffer st) 0 3 = depth_at fb 0 3 /\
    color_at (framebuffer st) 0 3 = color_at fb 0 3.
Proof.
  intros flags fb.
  eapply (run_other_pixels_unchanged Sample.Parameters Sample.FD Sample.shade_vertex
            Sample.shade_fragment Triangles flags Sample.half_square tt fb).
  - vm_compute. reflexivity.
  - vm_compute. intuition discriminate.
Defined.

(** ** Vertices that complete no primitive *)

Lemma pairs_app_short {A : Type} (k : nat) :
  forall l e : list A,
    length l = (2 * k)%nat -> (length e < 2)%nat -> pairs (l ++ e) = pairs l.
Proof.
  induction k as [ | k IH]; intros l e Hl He.
  - destruct l; [ | discriminate Hl]. cbn [app].
    destruct e as [ | x [ | y e]]; cbn in *; try reflexivity; lia.
  - destruct l as [ | a [ | b l]]; cbn [length] in Hl; try lia.
    cbn [app pairs]. f_equal. apply IH; lia.
Qed.

Lemma triples_app_short {A : Type} (k : nat) :
  forall l e : list A,
    length l = (3 * k)%nat -> (length e < 3)%nat -> triples (l ++ e) = triples l.
Proof.
  induction k as [ | k IH]; intros l e Hl He.
  - destruct l; [ | discriminate Hl]. cbn [app].
    destruct e as [ | x [ | y [ | z e]]]; cbn in *; try reflexivity; lia.
  - destruct l as [ | a [ | b [ | c l]]]; cbn [length] in Hl; try lia.
    cbn [app triples]. f_equal. apply IH; lia.
Qed.

(** Vertices after the last complete primitive are ignored: after a whole
    number of lines (of triangles), one more vertex (up to two more) does
    not change what [run] does; in particular a vertex list too short for
    one primitive leaves the framebuffer untouched, without any access and
    without a warning. *)
Theorem run_ignores_trailing_vertices
    (Parameters : Type) (FD : nat)
    (shade_vertex : Parameters -> list Q -> Vec4 * list Q)
    (shade_fragment : Parameters -> list Q -> list Vec2 -> Spectrum * Q)
    (primitive_type : PrimitiveType) (flags : Flags)
    (parameters : Parameters) (fb : Framebuffer)
    (k : nat) (vertices extra : list Vertex) :
  let n := match primitive_type with Lines => 2%nat | Triangles => 3%nat end in
  length vertices = (n * k)%nat ->
  (length extra < n)%nat ->
  run Parameters FD shade_vertex shade_fragment primitive_type flags
      (vertices ++ extra) parameters (Some fb)
  = run Parameters FD shade_vertex shade_fragment primitive_type flags
      vertices parameters (Some fb) /\
  run Parameters FD shade_vertex shade_fragment primitive_type flags
      extra parameters (Some fb)
  = Some (initial fb).
Proof.
  intros n Hlen Hextra.
  assert (Hclip : forall l e : list Vertex,
             length l = (n * k)%nat -> (length e < n)%nat ->
             clip_vertices primitive_type flags fb
               (shade_vertices Parameters shade_vertex parameters (l ++ e))
             = clip_vertices primitive_type flags fb
                 (shade_vertices Parameters shade_vertex parameters l)).
  { intros l e Hl He. unfold clip_vertices, shade_vertices. rewrite map_app.
    subst n. destruct primitive_type.
    - rewrite (pairs_app_short k) by (rewrite length_map; assumption). reflexivity.
    - rewrite (triples_app_short k) by (rewrite length_map; assumption). reflexivity. }
  split.
  - unfold run, fragments_of. rewrite (Hclip vertices extra Hlen Hextra). reflexivity.
  - unfold run, fragments_of, clip_vertices, rasterize, shade_vertices.
    subst n. destruct primitive_type.
    + destruct extra as [ | x [ | y extra]]; cbn in *; try reflexivity; lia.
    + destruct extra as [ | x [ | y [ | z extra]]]; cbn in *; try reflexivity; lia.
Qed.

(** One triangle followed by two more vertices. *)
Lemma run_ignores_trailing_vertices_witness :
  let flags :=
    Sample.flags_of Pipeline_Depth_Always Pipeline_Blend_Replace Pipeline_Interp_Flat in
  let fb := Sample.cleared 4 4 Sample.black in
  let extra := [Sample.vertex_of 0 0 0 1; Sample.vertex_of 1 1 0 1] in
  Sample.run Triangles flags (Sample.half_square ++ extra) fb
  = Sample.run Triangles flags Sample.half_square fb /\
  Sample.run Triangles flags extra fb = Some (initial fb).
Proof.
  intros flags fb extra.
  apply (run_ignores_trailing_vertices Sample.Parameters Sample.FD Sample.shade_vertex
           Sample.shade_fragment Triangles flags tt fb 1 Sample.half_square extra).
  - reflexivity.
  - cbn. lia.
Defined.

(** ** The pixels of a line do not depend on its direction *)

Lemma Float_leb_wd (a a' b b' : Q) :
  a == a' -> b == b' -> Float.leb a b = Float.leb a' b'.
Proof.
  intros Ha Hb. unfold Float.leb. apply eq_iff_eq_true.
  rewrite !Qle_bool_iff, Ha, Hb. reflexivity.
Qed.

Lemma Float_ltb_wd (a a' b b' : Q) :
  a == a' -> b == b' -> Float.ltb a b = Float.ltb a' b'.
Proof.
  intros Ha Hb. unfold Float.ltb. f_equal.
  apply (Float_leb_wd b b' a a'); assumption.
Qed.

Lemma Float_floor_wd (a a' : Q) : a == a' -> Float.floor a = Float.floor a'.
Proof. intros H. unfold Float.floor. rewrite H. reflexivity. Qed.

Lemma in_diamond_wd (px px' py : Q) (x y : Z) :
  px == px' -> in_diamond px py x y = in_diamond px' py x y.
Proof.
  intros H. unfold in_diamond. apply Float_leb_wd; [ | reflexivity].
  rewrite H. reflexivity.
Qed.

Ltac same_pixels :=
  rewrite ?map_app, ?map_map;
  repeat match goal with
  | |- context [ if ?c then _ else _ ] => destruct c
  end;
  reflexivity.

Section LinePixels.

Variable FD : nat.
Variables va vb va' vb' : ClippedVertex.
Variables reversed reversed' : bool.

Lemma rasterize_line_vertical_pixels (ax ax' ay by_ : Q) :
  ax == ax' ->
  map fragment_pixel (rasterize_line_vertical FD va vb ax ay by_)
  = map fragment_pixel (rasterize_line_vertical FD va' vb' ax' ay by_).
Proof.
  intros Hx. unfold rasterize_line_vertical. cbv zeta.
  rewrite (Float_floor_wd ax ax' Hx), !(in_diamond_wd ax ax' _ _ _ Hx).
  same_pixels.
Qed.

Lemma rasterize_line_vertical_swap (ax ay by_ : Q) :
  ~ ay == by_ ->
  map fragment_pixel (rasterize_line_vertical FD va vb ax ay by_)
  = map fragment_pixel (rasterize_line_vertical FD va vb ax by_ ay).
Proof.
  intros Hne. unfold rasterize_line_vertical. cbv zeta.
  destruct (Float.ltb by_ ay) eqn:E1, (Float.ltb ay by_) eqn:E2.
  - apply FloatFacts.ltb_lt in E1, E2. lra.
  - same_pixels.
  - same_pixels.
  - apply FloatFacts.ltb_ge in E1, E2. exfalso. apply Hne. lra.
Qed.

Lemma rasterize_line_horizontal_pixels (ax ay bx : Q) :
  map fragment_pixel (rasterize_line_horizontal FD va vb reversed ax ay bx)
  = map fragment_pixel (rasterize_line_horizontal FD va' vb' reversed' ax ay bx).
Proof.
  unfold rasterize_line_horizontal. cbv zeta. same_pixels.
Qed.

Lemma diagonal_loop_pixels (za zb za' zb' ax bx : Q) (dy : Z) (n : nat) :
  forall x y,
    map fragment_pixel (diagonal_loop FD va reversed za zb ax bx dy n x y)
    = map fragment_pixel (diagonal_loop FD va' reversed' za' zb' ax bx dy n x y).
Proof.
  induction n as [ | n IH]; intros x y; cbn [diagonal_loop map]; [reflexivity | ].
  f_equal. apply IH.
Qed.

Lemma rasterize_line_diagonal_positive_pixels (ax ay bx by_ : Q) :
  map fragment_pixel (rasterize_line_diagonal_positive FD va vb reversed ax ay bx by_)
  = map fragment_pixel
      (rasterize_line_diagonal_positive FD va' vb' reversed' ax ay bx by_).
Proof.
  unfold rasterize_line_diagonal_positive, diagonal_last. cbv zeta.
  rewrite !map_app. f_equal; [apply diagonal_loop_pixels | same_pixels].
Qed.

Lemma rasterize_line_diagonal_negative_pixels (ax ay bx by_ : Q) :
  map fragment_pixel (rasterize_line_diagonal_negative FD va vb reversed ax ay bx by_)
  = map fragment_pixel
      (rasterize_line_diagonal_negative FD va' vb' reversed' ax ay bx by_).
Proof.
  unfold rasterize_line_diagonal_negative, diagonal_last. cbv zeta.
  rewrite !map_app. f_equal; [apply diagonal_loop_pixels | same_pixels].
Qed.

Lemma general_loop_pixels (emit emit' : Z -> Z -> Fragment) (m : Q) (signslope : Z)
    (n : nat) :
  (forall x y, fragment_pixel (emit x y) = fragment_pixel (emit' x y)) ->
  forall x y epsilon,
    map fragment_pixel (fst (general_loop emit m signslope n x y epsilon))
    = map fragment_pixel (fst (general_loop emit' m signslope n x y epsilon)) /\
    snd (general_loop emit m signslope n x y epsilon)
    = snd (general_loop emit' m signslope n x y epsilon).
Proof.
  intros Hemit. induction n as [ | n IH]; intros x y epsilon; cbn [general_loop].
  - split; reflexivity.
  - cbv zeta.
    specialize (IH (x + 1)%Z
                   (if Float.ltb (1 - m) epsilon then (y + signslope)%Z else y)
                   (if Float.ltb (1 - m) epsilon then epsilon + (m - 1) else epsilon + m)).
    destruct (general_loop emit m signslope n _ _ _) as [fs st].
    destruct (general_loop emit' m signslope n _ _ _) as [fs' st'].
    cbn [fst snd map] in *. destruct IH as [IH1 IH2].
    split; [f_equal; [apply Hemit | exact IH1] | exact IH2].
Qed.

Lemma rasterize_line_general_pixels (mk mk' : Z -> Z -> Q -> Fragment)
    (ax ay bx by_ m : Q) (signslope : Z) :
  (forall x y z z', fragment_pixel (mk x y z) = fragment_pixel (mk' x y z')) ->
  map fragment_pixel
    (rasterize_line_general va vb reversed mk ax ay bx by_ m signslope)
  = map fragment_pixel
      (rasterize_line_general va' vb' reversed' mk' ax ay bx by_ m signslope).
Proof.
  intros Hmk. unfold rasterize_line_general. cbv zeta.
  match goal with
  | |- context [ if ?c1 then _ else if ?c2 then _ else if ?c3 then _ else _ ] =>
      destruct c1; [ | destruct c2; [ | destruct c3]]
  end.
  all: match goal with
       | |- map _ (let '(_, _) := general_loop ?e ?m0 ?s ?n ?x0 ?y0 ?eps in _)
            = map _ (let '(_, _) := general_loop ?e' _ _ _ _ _ _ in _) =>
           destruct (general_loop_pixels e e' m0 s n
                       ltac:(intros; apply Hmk) x0 y0 eps) as [H1 H2];
           destruct (general_loop e m0 s n x0 y0 eps) as [fs [x1 y1]];
           destruct (general_loop e' m0 s n x0 y0 eps) as [fs' [x1' y1']]
       end.
  all: cbn [fst snd] in H1, H2; injection H2 as <- <-.
  all: rewrite !map_app, H1; f_equal.
  all: destruct (_ || _)%bool; cbn [map]; [f_equal; apply Hmk | reflexivity].
Qed.

End LinePixels.

Ltac case_on_condition :=
  match goal with
  | |- map _ (if ?c then _ else _) = _ => destruct c
  end.

Ltac ordered_line_pixels :=
  cbv beta iota;
  case_on_condition; [apply rasterize_line_horizontal_pixels | ];
  case_on_condition; [apply rasterize_line_diagonal_positive_pixels | ];
  rewrite !map_app; f_equal;
  [ case_on_condition;
    [apply rasterize_line_diagonal_negative_pixels | reflexivity]
  | case_on_condition; [apply rasterize_line_general_pixels; reflexivity | ];
    case_on_condition; [apply rasterize_line_general_pixels; reflexivity | ];
    reflexivity ].

Lemma rasterize_line_body_pixels_symmetric (FD : nat) (va vb : ClippedVertex) :
  let ax := v3x (cv_fb_position va) in
  let bx := v3x (cv_fb_position vb) in
  (Qabs (bx - ax) < Float.FLT_EPSILON -> ax == bx) ->
  map fragment_pixel (rasterize_line_body FD va vb)
  = map fragment_pixel (rasterize_line_body FD vb va).
Proof.
  cbv zeta. intros Hvert. unfold rasterize_line_body. cbv zeta.
  set (ax := v3x (cv_fb_position va)) in *. set (ay := v3y (cv_fb_position va)) in *.
  set (bx := v3x (cv_fb_position vb)) in *. set (by_ := v3y (cv_fb_position vb)) in *.
  rewrite (Z.eqb_sym (Float.floor bx)), (Z.eqb_sym (Float.floor by_)).
  destruct ((Float.floor ax =? Float.floor bx) && (Float.floor ay =? Float.floor by_))%Z
    eqn:Epix; [reflexivity | ].
  rewrite (Qabs_Qminus ax bx).
  destruct (Float.ltb (Qabs (bx - ax)) Float.FLT_EPSILON) eqn:Evert.
  - apply FloatFacts.ltb_lt in Evert. specialize (Hvert Evert).
    assert (Hy : ~ ay == by_).
    { intros Hy. apply andb_false_iff in Epix.
      rewrite (Float_floor_wd ax bx Hvert), (Float_floor_wd ay by_ Hy),
        !Z.eqb_refl in Epix.
      destruct Epix; discriminate. }
    rewrite (rasterize_line_vertical_swap FD va vb ax ay by_ Hy).
    apply rasterize_line_vertical_pixels. exact Hvert.
  - apply FloatFacts.ltb_ge in Evert.
    assert (Hne : ~ ax == bx).
    { intros E. assert (Qabs (bx - ax) == 0) as H0.
      { rewrite E. setoid_replace (bx - bx) with 0 by ring. reflexivity. }
      rewrite H0 in Evert. revert Evert. apply Qlt_not_le. reflexivity. }
    destruct (Float.ltb bx ax) eqn:E1, (Float.ltb ax bx) eqn:E2.
    + apply FloatFacts.ltb_lt in E1, E2. lra.
    + ordered_line_pixels.
    + ordered_line_pixels.
    + apply FloatFacts.ltb_ge in E1, E2. exfalso. apply Hne. lra.
Qed.

(** The pixels that [rasterize_line] covers, and their order, are the same
    for a segment and for the segment taken from its other end, provided
    that a segment handled as vertical ([|bx - ax| < FLT_EPSILON]) has
    [ax = bx].  (The depths and the attributes of the fragments do depend
    on the direction.) *)
Theorem rasterize_line_pixels_symmetric (FD : nat) (flags : Flags)
    (va vb : ClippedVertex) :
  let ax := v3x (cv_fb_position va) in
  let bx := v3x (cv_fb_position vb) in
  (Qabs (bx - ax) < Float.FLT_EPSILON -> ax == bx) ->
  option_map (map fragment_pixel) (rasterize_line FD flags va vb)
  = option_map (map fragment_pixel) (rasterize_line FD flags vb va).
Proof.
  cbv zeta. intros Hvert. unfold rasterize_line.
  destruct (interp flags); cbn [option_map]; try reflexivity.
  f_equal. apply rasterize_line_body_pixels_symmetric. exact Hvert.
Qed.

(** The line from [(0.5, 0.5)] to [(4.5, 2.5)], from either end. *)
Lemma rasterize_line_pixels_symmetric_witness :
  let flags :=
    Sample.flags_of Pipeline_Depth_Always Pipeline_Blend_Replace Pipeline_Interp_Flat in
  let va := Sample.vertex (1 # 2) (1 # 2) 0 1 [7] in
  let vb := Sample.vertex (9 # 2) (5 # 2) 1 1 [8] in
  option_map (map fragment_pixel) (rasterize_line Sample.FD flags va vb)
  = Some [(0, 0); (1, 0); (2, 1); (3, 1); (4, 2)]%Z /\
  option_map (map fragment_pixel) (rasterize_line Sample.FD flags va vb)
  = option_map (map fragment_pixel) (rasterize_line Sample.FD flags vb va).
Proof.
  intros flags va vb. split; [vm_compute; reflexivity | ].
  apply rasterize_line_pixels_symmetric.
  intros H. vm_compute in H. discriminate H.
Defined.

(** ** Vertical lines between pixel boundaries *)





(** ** Horizontal lines between pixel boundaries *)


